(** * AutoTutor (src/App.jsx): response normalisation, quiz session and chat
      history of the [App] component, embedded in Rocq.

    The component keeps its session in React state variables and talks to
    four collaborators: the completion endpoint ([fetch]), [localStorage],
    the browser's alert box and its speech output.  The embedding is by
    explicit state
    passing: a [World] holds the state variables and the collaborators,
    and every handler of the component is a function on worlds.  An
    [async] handler is split at its [await]: the part that runs when the
    handler is called, and the part that runs when the request settles. *)

From Stdlib Require Import ZArith Ascii String DecimalString.
From stdpp Require Import base option list gmap strings.

Set Warnings "-register-all".

Local Open Scope Z_scope.
Local Open Scope string_scope.
Local Open Scope list_scope.
Local Open Scope nat_scope.

(** ** JavaScript values *)

Module JS.

(** The values the component handles: what [JSON.parse] produces, plus
    [undefined] for absent properties.  Numbers are the integers; the
    fractional and exponent forms of JSON numbers are outside the model. *)
Inductive JSValue : Type :=
  | JUndefined
  | JNull
  | JBool (b : bool)
  | JNum (z : Z)
  | JStr (s : string)
  | JArr (items : list JSValue)
  | JObj (props : list (string * JSValue)).

(** A synchronous computation either completes or throws (a [TypeError]
    in every use below). *)
Inductive Completion (A : Type) : Type :=
  | Normal (a : A)
  | Throw.
Arguments Normal {A} a.
Arguments Throw {A}.

#[global] Instance Completion_ret : MRet Completion := fun _ a => Normal a.
#[global] Instance Completion_bind : MBind Completion := fun _ _ k c =>
  match c with
  | Normal a => k a
  | Throw => Throw
  end.

(** [!!v]: [undefined], [null], [false], [0] and the empty string are falsy;
    every array and object is truthy, the empty ones included. *)
Definition truthy (v : JSValue) : bool :=
  match v with
  | JUndefined | JNull => false
  | JBool b => b
  | JNum z => negb (z =? 0)%Z
  | JStr s => negb (String.eqb s "")
  | JArr _ | JObj _ => true
  end.

(** [a || b] *)
Definition or_else (a b : JSValue) : JSValue := if truthy a then a else b.

(** [a === b].  Arrays and objects compare by reference; every array or
    object the component compares is a separate node of a parsed tree, so
    two of them are never the same reference. *)
Definition strict_eq (a b : JSValue) : bool :=
  match a, b with
  | JUndefined, JUndefined => true
  | JNull, JNull => true
  | JBool x, JBool y => Bool.eqb x y
  | JNum x, JNum y => (x =? y)%Z
  | JStr x, JStr y => String.eqb x y
  | _, _ => false
  end.

(** Own property of a plain object. *)
Fixpoint obj_get (k : string) (props : list (string * JSValue)) : JSValue :=
  match props with
  | [] => JUndefined
  | (k', v) :: rest => if String.eqb k k' then v else obj_get k rest
  end.

(** [obj[k] = v]: an existing key keeps its place. *)
Fixpoint obj_set (k : string) (v : JSValue) (props : list (string * JSValue))
  : list (string * JSValue) :=
  match props with
  | [] => [(k, v)]
  | (k', v') :: rest =>
      if String.eqb k k' then (k, v) :: rest else (k', v') :: obj_set k v rest
  end.

(** [v.k] for the data properties the component reads ([lesson], [quiz],
    [summary], [topic], [correct], [choices], [message], [content],
    [text]): none of them is inherited by arrays, strings, numbers or
    booleans.  Reading a property of [undefined] or [null] throws. *)
Definition member (v : JSValue) (k : string) : Completion JSValue :=
  match v with
  | JUndefined | JNull => Throw
  | JObj props => Normal (obj_get k props)
  | _ => Normal JUndefined
  end.

(** [v?.k] *)
Definition opt_member (v : JSValue) (k : string) : JSValue :=
  match v with
  | JObj props => obj_get k props
  | _ => JUndefined
  end.

(** [v?.[0]] *)
Definition opt_index0 (v : JSValue) : JSValue :=
  match v with
  | JArr (x :: _) => x
  | JStr (String c _) => JStr (String c EmptyString)
  | JObj props => obj_get "0" props
  | _ => JUndefined
  end.

(** [Array.isArray(v)] *)
Definition isArray (v : JSValue) : bool :=
  match v with
  | JArr _ => true
  | _ => false
  end.

Definition string_of_Z (z : Z) : string := NilZero.string_of_int (Z.to_int z).

Fixpoint join (sep : string) (parts : list string) : string :=
  match parts with
  | [] => ""
  | [p] => p
  | p :: rest => p +:+ sep +:+ join sep rest
  end.

(** [String(v)], as template literals and [JSON.parse] apply it to their
    argument.  An array prints its elements separated by commas, with
    [null] and [undefined] elements printed as nothing. *)
Fixpoint ToString (v : JSValue) : string :=
  match v with
  | JUndefined => "undefined"
  | JNull => "null"
  | JBool true => "true"
  | JBool false => "false"
  | JNum z => string_of_Z z
  | JStr s => s
  | JArr items =>
      join "," (map (fun x => match x with
                              | JUndefined | JNull => ""
                              | _ => ToString x
                              end) items)
  | JObj _ => "[object Object]"
  end.

(** Strings are the UTF-8 texts of the JavaScript strings.  The
    characters that [String.prototype.trim] removes are the white space
    and the line terminators of the language: six of them are single
    bytes (TAB, LF, VT, FF, CR, SPACE), one has two bytes (U+00A0) and
    the others three (U+1680, U+2000 to U+200A, U+2028, U+2029, U+202F,
    U+205F, U+3000, U+FEFF). *)
Definition is_space (c : ascii) : bool :=
  match nat_of_ascii c with
  | 9 | 10 | 11 | 12 | 13 | 32 => true
  | _ => false
  end.

Definition byte (c : ascii) (n : nat) : bool := (nat_of_ascii c =? n)%nat.

(** U+00A0 is C2 A0. *)
Definition is_space2 (c d : ascii) : bool := byte c 194 && byte d 160.

(** U+1680 is E1 9A 80; U+2000 to U+200A are E2 80 80 to E2 80 8A;
    U+2028, U+2029 and U+202F are E2 80 A8, E2 80 A9 and E2 80 AF;
    U+205F is E2 81 9F; U+3000 is E3 80 80; U+FEFF is EF BB BF. *)
Definition is_space3 (c d e : ascii) : bool :=
  (byte c 225 && byte d 154 && byte e 128)
  || (byte c 226 && byte d 128
      && (((128 <=? nat_of_ascii e)%nat && (nat_of_ascii e <=? 138)%nat)
          || byte e 168 || byte e 169 || byte e 175))
  || (byte c 226 && byte d 129 && byte e 159)
  || (byte c 227 && byte d 128 && byte e 128)
  || (byte c 239 && byte d 187 && byte e 191).

(** The text after the white-space character that [s] begins with. *)
Definition strip_space (s : string) : option string :=
  match s with
  | String c rest =>
      if is_space c then Some rest
      else
        match rest with
        | String d rest1 =>
            if is_space2 c d then Some rest1
            else
              match rest1 with
              | String e rest2 => if is_space3 c d e then Some rest2 else None
              | EmptyString => None
              end
        | EmptyString => None
        end
  | EmptyString => None
  end.

(** [s.trimStart()]: the white-space characters at the head are dropped
    one after the other. *)
Fixpoint trim_start (s : string) : string :=
  match s with
  | String c rest =>
      if is_space c then trim_start rest
      else
        match rest with
        | String d rest1 =>
            if is_space2 c d then trim_start rest1
            else
              match rest1 with
              | String e rest2 => if is_space3 c d e then trim_start rest2 else s
              | EmptyString => s
              end
        | EmptyString => s
        end
  | EmptyString => EmptyString
  end.

(** [s.trimEnd()]: the text is cut where what remains is white space
    only, that is, where [trim_start] leaves nothing of it. *)
Fixpoint trim_end (s : string) : string :=
  match s with
  | EmptyString => EmptyString
  | String c rest =>
      if String.eqb (trim_start s) "" then EmptyString
      else String c (trim_end rest)
  end.

(** [s.trim()] *)
Definition trim (s : string) : string := trim_end (trim_start s).

(** [arr.slice(start)]: a negative [start] counts from the end, and both
    ends are clamped to the array. *)
Definition slice {A} (start : Z) (l : list A) : list A :=
  let len := Z.of_nat (length l) in
  let k := if (start <? 0)%Z then Z.max (len + start) 0 else Z.min start len in
  drop (Z.to_nat k) l.

End JS.

Import JS.

(** ** The JSON built-ins *)

(** [JSON.parse] and [JSON.stringify] are the platform's, not the
    component's: the handlers are defined over any pair of them.
    [JSON.parse] returns [None] where the built-in throws a [SyntaxError],
    which it does on the empty text. *)
Class JSONBuiltin : Type := {
  JSON_parse : string -> option JSValue;
  JSON_stringify : JSValue -> string;
  JSON_parse_empty : JSON_parse "" = None
}.

(** A reader and a printer for the JSON texts of the scenarios: objects,
    arrays, strings with the two-character escapes, integers and the three
    literals.  They stand for the built-ins wherever a handler is run on a
    concrete text. *)
Module Json.

Definition dquote : ascii := "034"%char.
Definition backslash : ascii := "092"%char.

Definition is_json_space (c : ascii) : bool :=
  match nat_of_ascii c with
  | 9 | 10 | 13 | 32 => true
  | _ => false
  end.

Fixpoint skip_space (s : string) : string :=
  match s with
  | String c rest => if is_json_space c then skip_space rest else s
  | EmptyString => EmptyString
  end.

Definition unescape (c : ascii) : option ascii :=
  match nat_of_ascii c with
  | 34 => Some dquote
  | 92 => Some backslash
  | 47 => Some "/"%char
  | 98 => Some "008"%char
  | 102 => Some "012"%char
  | 110 => Some "010"%char
  | 114 => Some "013"%char
  | 116 => Some "009"%char
  | _ => None
  end.

(** The characters of a string literal after its opening quote, and the
    text after its closing quote. *)
Fixpoint read_chars (s : string) : option (string * string) :=
  match s with
  | EmptyString => None
  | String c rest =>
      if Ascii.eqb c dquote then Some (EmptyString, rest)
      else if Ascii.eqb c backslash then
        match rest with
        | String e rest' =>
            match unescape e, read_chars rest' with
            | Some ch, Some (body, tl) => Some (String ch body, tl)
            | _, _ => None
            end
        | EmptyString => None
        end
      else if (nat_of_ascii c <? 32)%nat then None
      else
        match read_chars rest with
        | Some (body, tl) => Some (String c body, tl)
        | None => None
        end
  end.

Definition digit_of (c : ascii) : option Z :=
  let n := nat_of_ascii c in
  if ((48 <=? n) && (n <=? 57))%nat then Some (Z.of_nat (n - 48)) else None.

Fixpoint read_digits (acc : Z) (s : string) : Z * string :=
  match s with
  | String c rest =>
      match digit_of c with
      | Some d => read_digits (10 * acc + d)%Z rest
      | None => (acc, s)
      end
  | EmptyString => (acc, s)
  end.

(** An integer literal: no leading zero, and no fraction or exponent. *)
Definition read_int (s : string) : option (Z * string) :=
  match s with
  | String c rest =>
      match digit_of c with
      | Some 0%Z => Some (0%Z, rest)
      | Some d => Some (read_digits d rest)
      | None => None
      end
  | EmptyString => None
  end.

Definition no_fraction (s : string) : bool :=
  match s with
  | String c _ =>
      negb (Ascii.eqb c "."%char || Ascii.eqb c "e"%char || Ascii.eqb c "E"%char)
  | EmptyString => true
  end.

Definition read_number (s : string) : option (JSValue * string) :=
  let '(sign, body) :=
    match s with
    | String "-"%char rest => ((-1)%Z, rest)
    | _ => (1%Z, s)
    end in
  match read_int body with
  | Some (n, rest) => if no_fraction rest then Some (JNum (sign * n), rest) else None
  | None => None
  end.

Definition read_literal (word : string) (v : JSValue) (s : string)
  : option (JSValue * string) :=
  if String.prefix word s
  then Some (v, String.substring (String.length word)
                                 (String.length s - String.length word) s)
  else None.

(** [read_value] reads one value; [read_elements] and [read_members] read
    what follows the opening bracket or a comma.  A key that comes twice
    keeps its last value.  The fuel bounds the depth of the calls, each of
    which is entered after at least one character. *)
Fixpoint read_value (fuel : nat) (s : string) : option (JSValue * string) :=
  match fuel with
  | O => None
  | S fuel' =>
      match skip_space s with
      | String c rest =>
          match nat_of_ascii c with
          | 123 (* { *) =>
              match skip_space rest with
              | String "}"%char tl => Some (JObj [], tl)
              | _ =>
                  match read_members fuel' [] rest with
                  | Some (props, tl) => Some (JObj props, tl)
                  | None => None
                  end
              end
          | 91 (* [ *) =>
              match skip_space rest with
              | String "]"%char tl => Some (JArr [], tl)
              | _ =>
                  match read_elements fuel' rest with
                  | Some (items, tl) => Some (JArr items, tl)
                  | None => None
                  end
              end
          | 34 =>
              match read_chars rest with
              | Some (str, tl) => Some (JStr str, tl)
              | None => None
              end
          | 116 => read_literal "true" (JBool true) (String c rest)
          | 102 => read_literal "false" (JBool false) (String c rest)
          | 110 => read_literal "null" JNull (String c rest)
          | _ => read_number (String c rest)
          end
      | EmptyString => None
      end
  end
with read_elements (fuel : nat) (s : string) : option (list JSValue * string) :=
  match fuel with
  | O => None
  | S fuel' =>
      match read_value fuel' s with
      | Some (v, tl) =>
          match skip_space tl with
          | String "]"%char tl' => Some ([v], tl')
          | String ","%char tl' =>
              match read_elements fuel' tl' with
              | Some (vs, tl'') => Some (v :: vs, tl'')
              | None => None
              end
          | _ => None
          end
      | None => None
      end
  end
with read_members (fuel : nat) (acc : list (string * JSValue)) (s : string)
  : option (list (string * JSValue) * string) :=
  match fuel with
  | O => None
  | S fuel' =>
      match skip_space s with
      | String c rest =>
          if Ascii.eqb c dquote then
            match read_chars rest with
            | Some (k, tl) =>
                match skip_space tl with
                | String ":"%char tl' =>
                    match read_value fuel' tl' with
                    | Some (v, tl'') =>
                        match skip_space tl'' with
                        | String "}"%char tl3 => Some (obj_set k v acc, tl3)
                        | String ","%char tl3 =>
                            read_members fuel' (obj_set k v acc) tl3
                        | _ => None
                        end
                    | None => None
                    end
                | _ => None
                end
            | None => None
            end
          else None
      | EmptyString => None
      end
  end.

(** [JSON.parse(text)]: one value, then nothing but white space. *)
Definition parse (text : string) : option JSValue :=
  match read_value (2 * String.length text + 2) text with
  | Some (v, tl) =>
      match skip_space tl with
      | EmptyString => Some v
      | _ => None
      end
  | None => None
  end.

Fixpoint escape (s : string) : string :=
  match s with
  | EmptyString => EmptyString
  | String c rest =>
      if Ascii.eqb c dquote || Ascii.eqb c backslash
      then String backslash (String c (escape rest))
      else String c (escape rest)
  end.

Definition quote (s : string) : string :=
  String dquote (escape s +:+ String dquote EmptyString).

(** [JSON.stringify(v)]: a property whose value is [undefined] is left
    out, an [undefined] array element prints as [null]. *)
Fixpoint stringify (v : JSValue) : string :=
  match v with
  | JUndefined | JNull => "null"
  | JBool true => "true"
  | JBool false => "false"
  | JNum z => string_of_Z z
  | JStr s => quote s
  | JArr items => "[" +:+ join "," (map stringify items) +:+ "]"
  | JObj props =>
      "{" +:+ join "," (omap (fun '(k, x) =>
                 if strict_eq x JUndefined then None
                 else Some (quote k +:+ ":" +:+ stringify x)) props) +:+ "}"
  end.

(** The texts below are written with an apostrophe where JSON has a
    double quote. *)
Fixpoint text (s : string) : string :=
  match s with
  | EmptyString => EmptyString
  | String c rest => String (if Ascii.eqb c "'"%char then dquote else c) (text rest)
  end.

#[global] Program Instance builtin : JSONBuiltin :=
  {| JSON_parse := parse; JSON_stringify := stringify |}.
Next Obligation. reflexivity. Qed.

End Json.

(** ** The component's state and its collaborators *)

Inductive Role : Type := system | user | assistant.

(** An entry of [messages], and of the [messages] array of a request. *)
Record ChatTurn : Type := mkTurn { role : Role; content : JSValue }.

(** The [useState] variables of [App].  [chatMode] and [listening] only
    steer the rendering and no handler below reads them; they are left
    out.  [topic], [lesson], [quiz] and [summary] hold whatever the
    handlers store in them, which after a reload is any stored value. *)
Record AppState : Type := mkApp {
  topic : JSValue;
  lesson : JSValue;
  quiz : JSValue;
  summary : JSValue;
  selected : gmap nat JSValue;
  score : option nat;
  loading : bool;
  messages : list ChatTurn;
  chatInput : string;
  chatLoading : bool
}.

(** A call of [fetch]: the [messages] array of its payload. *)
Inductive Request : Type :=
  | LessonRequest (msgs : list ChatTurn)
  | ChatRequest (msgs : list ChatTurn).

(** How the two awaited calls, [fetch] and [response.json()], end: one of
    them throws (no connection, a body that is not JSON), or the body is
    read as [result].  A reply with an error status and a JSON body is of
    the second kind: [fetch] does not throw on it. *)
Inductive FetchOutcome : Type :=
  | FetchThrows
  | FetchResolves (result : JSValue).

(** The state variables together with the collaborators: the item
    [autotutor-progress] of [localStorage], the alerts shown, the requests
    sent so far (oldest first) and the texts handed to [speakText]. *)
Record World : Type := mkWorld {
  app : AppState;
  storage : option string;
  alerts : list string;
  requests : list Request;
  spoken : list JSValue
}.

Definition initialApp : AppState :=
  {| topic := JStr ""; lesson := JStr ""; quiz := JArr []; summary := JStr "";
     selected := ∅; score := None; loading := false;
     messages := []; chatInput := ""; chatLoading := false |}.

Definition initialWorld (saved : option string) : World :=
  {| app := initialApp; storage := saved; alerts := []; requests := []; spoken := [] |}.

Definition with_app (f : AppState -> AppState) (w : World) : World :=
  {| app := f (app w); storage := storage w; alerts := alerts w;
     requests := requests w; spoken := spoken w |}.

Definition alert (msg : string) (w : World) : World :=
  {| app := app w; storage := storage w; alerts := alerts w ++ [msg];
     requests := requests w; spoken := spoken w |}.

Definition send (r : Request) (w : World) : World :=
  {| app := app w; storage := storage w; alerts := alerts w;
     requests := requests w ++ [r]; spoken := spoken w |}.

Definition setItem (text : string) (w : World) : World :=
  {| app := app w; storage := Some text; alerts := alerts w;
     requests := requests w; spoken := spoken w |}.

Definition removeItem (w : World) : World :=
  {| app := app w; storage := None; alerts := alerts w;
     requests := requests w; spoken := spoken w |}.

Definition speakText (text : JSValue) (w : World) : World :=
  {| app := app w; storage := storage w; alerts := alerts w;
     requests := requests w; spoken := spoken w ++ [text] |}.

Definition setLoading (b : bool) (st : AppState) : AppState :=
  {| topic := topic st; lesson := lesson st; quiz := quiz st; summary := summary st;
     selected := selected st; score := score st; loading := b;
     messages := messages st; chatInput := chatInput st; chatLoading := chatLoading st |}.

Definition setChatLoading (b : bool) (st : AppState) : AppState :=
  {| topic := topic st; lesson := lesson st; quiz := quiz st; summary := summary st;
     selected := selected st; score := score st; loading := loading st;
     messages := messages st; chatInput := chatInput st; chatLoading := b |}.

Definition setChatInput (s : string) (st : AppState) : AppState :=
  {| topic := topic st; lesson := lesson st; quiz := quiz st; summary := summary st;
     selected := selected st; score := score st; loading := loading st;
     messages := messages st; chatInput := s; chatLoading := chatLoading st |}.

Definition setTopic (v : JSValue) (st : AppState) : AppState :=
  {| topic := v; lesson := lesson st; quiz := quiz st; summary := summary st;
     selected := selected st; score := score st; loading := loading st;
     messages := messages st; chatInput := chatInput st; chatLoading := chatLoading st |}.

(** [setMessages(f)] with an updater: [f] is applied to the history of
    the moment, not to the one the handler closed over. *)
Definition setMessages (f : list ChatTurn -> list ChatTurn) (st : AppState) : AppState :=
  {| topic := topic st; lesson := lesson st; quiz := quiz st; summary := summary st;
     selected := selected st; score := score st; loading := loading st;
     messages := f (messages st); chatInput := chatInput st;
     chatLoading := chatLoading st |}.

Definition setSelected (f : gmap nat JSValue -> gmap nat JSValue) (st : AppState)
  : AppState :=
  {| topic := topic st; lesson := lesson st; quiz := quiz st; summary := summary st;
     selected := f (selected st); score := score st; loading := loading st;
     messages := messages st; chatInput := chatInput st; chatLoading := chatLoading st |}.

Definition setScore (s : option nat) (st : AppState) : AppState :=
  {| topic := topic st; lesson := lesson st; quiz := quiz st; summary := summary st;
     selected := selected st; score := s; loading := loading st;
     messages := messages st; chatInput := chatInput st; chatLoading := chatLoading st |}.

(** [setLesson(l); setQuiz(q); setSummary(s)] *)
Definition setLessonQuizSummary (l q s : JSValue) (st : AppState) : AppState :=
  {| topic := topic st; lesson := l; quiz := q; summary := s;
     selected := selected st; score := score st; loading := loading st;
     messages := messages st; chatInput := chatInput st; chatLoading := chatLoading st |}.

(** [selected[i]] *)
Definition selection (sel : gmap nat JSValue) (i : nat) : JSValue :=
  default JUndefined (sel !! i).

(** The [selected] object as a value: its keys are the indices printed in
    decimal. *)
Definition selected_object (sel : gmap nat JSValue) : JSValue :=
  JObj (map (fun '(i, v) => (string_of_Z (Z.of_nat i), v)) (map_to_list sel)).

(** [{ ...base, ...v }] for the only [v] that is spread, a plain object. *)
Definition spread (base : list (string * JSValue)) (v : JSValue) : JSValue :=
  match v with
  | JObj props => JObj (fold_left (fun acc '(k, x) => obj_set k x acc) props base)
  | _ => JObj base
  end.

(** ** The handlers of [App] *)

Section Handlers.

Context {J : JSONBuiltin}.

(** *** [extractJSON] (lines 25-43) *)

(** The longest prefix of [s] that ends with [closer]. *)
Fixpoint upto_last (closer : ascii) (s : string) : option string :=
  match s with
  | EmptyString => None
  | String c rest =>
      match upto_last closer rest with
      | Some pre => Some (String c pre)
      | None => if Ascii.eqb c closer then Some (String c EmptyString) else None
      end
  end.

(** [text.match(/\{[\s\S]*\}|\[[\s\S]*\]/)]: at the first position that
    holds an opening brace with a closing brace somewhere after it, or an
    opening bracket with a closing bracket after it, the text from there
    up to the last such closer. *)
Fixpoint match_json_block (s : string) : option string :=
  match s with
  | EmptyString => None
  | String c rest =>
      let here :=
        if Ascii.eqb c "{"%char then upto_last "}"%char rest
        else if Ascii.eqb c "["%char then upto_last "]"%char rest
        else None in
      match here with
      | Some block => Some (String c block)
      | None => match_json_block rest
      end
  end.

(** [null] is [JNull].  A [text] that is not a string has no [match]
    method: when [JSON.parse] rejects its printed form the handler of the
    first [catch] throws. *)
Definition extractJSON (text : JSValue) : Completion JSValue :=
  if negb (truthy text) then Normal JNull
  else
    match JSON_parse (ToString text) with
    | Some parsed => Normal parsed
    | None =>
        match text with
        | JStr s =>
            match match_json_block s with
            | Some block =>
                match JSON_parse block with
                | Some parsed => Normal parsed
                | None => Normal JNull
                end
            | None => Normal JNull
            end
        | _ => Throw
        end
    end.

(** *** [fetchLesson] (lines 45-120) *)

Definition lessonSystemPrompt : string :=
  "You are a concise teaching assistant. Always respond ONLY with valid JSON (no extra text). The JSON must contain: lesson (string), quiz (array of objects with q, a (array of 3 strings), correct (exact string answer)), summary (string). Keep lesson ~2-4 sentences, quiz length 2, summary 1 sentence.".

Definition lessonUserPrompt (t : string) : string :=
  Json.text "Create a lesson for the topic: '" +:+ t +:+
  Json.text "'. Return ONLY valid JSON with keys exactly: lesson, quiz, summary. Example quiz item: {'q':'...','a':['opt1','opt2','opt3'],'correct':'opt2'}. Do not include any explanation outside JSON.".

Definition lessonRequest (t : string) : Request :=
  LessonRequest [ mkTurn system (JStr lessonSystemPrompt);
                  mkTurn user (JStr (lessonUserPrompt t)) ].

Definition connectError : string :=
  "Error connecting to Groq API â€” check console and your API key.".

(** Lines 47-54: the setters called before the request is built. *)
Definition clearForNewLesson (st : AppState) : AppState :=
  {| topic := topic st; lesson := JStr ""; quiz := JArr []; summary := JStr "";
     selected := ∅; score := None; loading := true;
     messages := []; chatInput := chatInput st; chatLoading := chatLoading st |}.

(** The call of [fetchLesson], up to its first [await]: the guard on the
    topic, the clearing of the session and the call of [fetch].
    [topic.trim()] throws on a topic that is not a string. *)
Definition fetchLesson_begin (w : World) : Completion World :=
  match topic (app w) with
  | JStr t =>
      if String.eqb (trim t) ""
      then Normal (alert "Please enter a topic first!" w)
      else Normal (send (lessonRequest t) (with_app clearForNewLesson w))
  | _ => Throw
  end.

(** Line 85:
    [result?.choices?.[0]?.message?.content || result?.choices?.[0]?.text || ""] *)
Definition rawTextOf (result : JSValue) : JSValue :=
  let choice := opt_index0 (opt_member result "choices") in
  or_else (or_else (opt_member (opt_member choice "message") "content")
                   (opt_member choice "text"))
          (JStr "").

(** What a generation attempt shows: the arguments of [setLesson],
    [setQuiz] and [setSummary]. *)
Record LessonRecord : Type := mkLesson {
  lr_lesson : JSValue;
  lr_quiz : JSValue;
  lr_summary : JSValue
}.

(** Line 91: [parsed && parsed.lesson && parsed.quiz && parsed.summary].
    Behind [parsed &&] the three reads are of a value that is neither
    [null] nor [undefined], so that they cannot throw. *)
Definition accepted (parsed : JSValue) : bool :=
  truthy parsed && truthy (opt_member parsed "lesson")
  && truthy (opt_member parsed "quiz") && truthy (opt_member parsed "summary").

Inductive Normalized : Type :=
  | Accepted (parsed : JSValue) (record : LessonRecord)
  | NormalizationFailure (rawText : JSValue).

(** Lines 89-94: the parse and the test of its result, with the record
    the first branch of the test shows. *)
Definition normalize (rawText : JSValue) : Completion Normalized :=
  parsed ← extractJSON rawText;
  mret (if accepted parsed
        then Accepted parsed
               {| lr_lesson := opt_member parsed "lesson";
                  lr_quiz := if isArray (opt_member parsed "quiz")
                             then opt_member parsed "quiz" else JArr [];
                  lr_summary := opt_member parsed "summary" |}
        else NormalizationFailure rawText).

Definition quizItem (q : string) (a : list string) (correct : string) : JSValue :=
  JObj [("q", JStr q); ("a", JArr (map JStr a)); ("correct", JStr correct)].

(** Lines 99-112: the record of the second branch. *)
Definition synthesize (t : string) (rawText : JSValue) : LessonRecord :=
  {| lr_lesson :=
       or_else rawText
         (JStr (Json.text "Lesson generation failed for '" +:+ t +:+
                Json.text "'. Check console."));
     lr_quiz :=
       JArr [ quizItem ("What is " +:+ t +:+ "?")
                       ["A function"; "A concept"; "A library"] "A concept";
              quizItem ("Why is " +:+ t +:+ " important?")
                       ["For styling"; "For organization"; "For memory"]
                       "For organization" ];
     lr_summary := JStr (t +:+ " helps developers write clean and maintainable code.") |}.

Definition showLesson (r : LessonRecord) (w : World) : World :=
  with_app (setLessonQuizSummary (lr_lesson r) (lr_quiz r) (lr_summary r)) w.

(** The rest of [fetchLesson], run when the request settles; [t] is the
    topic the call closed over.  An exception of the [try] block ends in
    the alert of the [catch]; [finally] resets [loading] on every path. *)
Definition fetchLesson_settle (t : string) (outcome : FetchOutcome) (w : World) : World :=
  let shown :=
    match outcome with
    | FetchThrows => alert connectError w
    | FetchResolves result =>
        match normalize (rawTextOf result) with
        | Throw => alert connectError w
        | Normal (Accepted parsed record) =>
            setItem (JSON_stringify (spread [("topic", JStr t)] parsed))
                    (showLesson record w)
        | Normal (NormalizationFailure rawText) =>
            showLesson (synthesize t rawText) w
        end
    end in
  with_app (setLoading false) shown.

(** A call that is not interleaved with anything else. *)
Definition fetchLesson (outcome : FetchOutcome) (w : World) : Completion World :=
  match topic (app w) with
  | JStr t =>
      if String.eqb (trim t) "" then fetchLesson_begin w
      else w' ← fetchLesson_begin w; mret (fetchLesson_settle t outcome w')
  | _ => Throw
  end.

(** *** [sendChatMessage] (lines 123-182) *)

Definition chatSystemPrompt : string :=
  "You are a helpful, concise teaching assistant. Answer the user's questions clearly and directly. When helpful, provide short code examples. Keep responses brief (2-6 sentences) unless the user asks for more detail.".

(** Line 143: [(messages || []).slice(-10).map(m => ({role, content}))] *)
Definition windowForPrompt (history : list ChatTurn) : list ChatTurn :=
  map (fun m => {| role := role m; content := content m |}) (slice (-10) history).

Definition chatError : ChatTurn :=
  mkTurn assistant
    (JStr "Sorry â€” there was an error fetching a response. Check console.").

(** The call of [sendChatMessage], up to its first [await].  [r] is the
    render the called closure belongs to: the guard reads its
    [chatLoading] and the prompt is built from its [messages], while the
    setters act on the state of the moment. *)
Definition sendChatMessage_begin (r : AppState) (userText : string) (w : World) : World :=
  if String.eqb userText "" || chatLoading r then w
  else
    let userMsg := mkTurn user (JStr userText) in
    let w1 := with_app (setMessages (fun m => m ++ [userMsg])) w in
    let w2 := with_app (setChatInput "") w1 in
    let w3 := with_app (setChatLoading true) w2 in
    let history := windowForPrompt (messages r) ++ [userMsg] in
    send (ChatRequest (mkTurn system (JStr chatSystemPrompt) :: history)) w3.

(** The rest of [sendChatMessage], run when the request settles. *)
Definition sendChatMessage_settle (speakResponse : bool) (outcome : FetchOutcome)
    (w : World) : World :=
  let replied :=
    match outcome with
    | FetchResolves result =>
        let rawText := rawTextOf result in
        let w1 := with_app (setMessages (fun m => m ++ [mkTurn assistant rawText])) w in
        if speakResponse && truthy rawText then speakText rawText w1 else w1
    | FetchThrows => with_app (setMessages (fun m => m ++ [chatError])) w
    end in
  with_app (setChatLoading false) replied.

(** A call from the current render that is not interleaved with anything
    else. *)
Definition sendChatMessage (userText : string) (speakResponse : bool)
    (outcome : FetchOutcome) (w : World) : World :=
  if String.eqb userText "" || chatLoading (app w) then w
  else sendChatMessage_settle speakResponse outcome
         (sendChatMessage_begin (app w) userText w).

(** *** The quiz: [selectOption] and [submitQuiz] (lines 277-294) *)

Definition snapshot (st : AppState) (extra : list (string * JSValue)) : JSValue :=
  JObj ([("topic", topic st); ("lesson", lesson st); ("quiz", quiz st);
         ("summary", summary st)] ++ extra).

(** The item is written inside the updater, from the selections of the
    moment; the other fields are those of the current render. *)
Definition selectOption (qIndex : nat) (opt : JSValue) (w : World) : World :=
  match score (app w) with
  | Some _ => w
  | None =>
      let next := <[qIndex := opt]> (selected (app w)) in
      setItem (JSON_stringify (snapshot (app w) [("selected", selected_object next)]))
              (with_app (setSelected (fun _ => next)) w)
  end.

(** The loop of [quiz.forEach]: [i] is the index of the first of [items]
    and [s] the counter.  Reading [q.correct] throws on an item that is
    [null]. *)
Fixpoint countCorrect (sel : gmap nat JSValue) (i : nat) (items : list JSValue)
    (s : nat) : Completion nat :=
  match items with
  | [] => Normal s
  | q :: rest =>
      c ← member q "correct";
      countCorrect sel (S i) rest (if strict_eq (selection sel i) c then S s else s)
  end.

(** [quiz.length === 0] is read on whatever [quiz] holds; a [quiz] that is
    not an array has no [forEach], and [null] has no [length]. *)
Definition submitQuiz (w : World) : Completion World :=
  let st := app w in
  match quiz st with
  | JArr items =>
      if (length items =? 0)%nat then Normal w
      else
        s ← countCorrect (selected st) 0 items 0;
        mret (setItem (JSON_stringify
                         (snapshot st [("selected", selected_object (selected st));
                                       ("score", JNum (Z.of_nat s))]))
                      (with_app (setScore (Some s)) w))
  | JStr str => if String.eqb str "" then Normal w else Throw
  | JObj props => if strict_eq (obj_get "length" props) (JNum 0) then Normal w else Throw
  | _ => Throw
  end.

(** *** Loading, resetting and clearing (lines 264-275, 296-312) *)

(** The effect that runs once after the first render.  An item that does
    not parse, or that parses to [null], leaves the state as it is: the
    exception is thrown before any setter is called and the [catch] is
    empty. *)
Definition loadProgress (w : World) : World :=
  match storage w with
  | None => w
  | Some saved =>
      if String.eqb saved "" then w
      else
        match JSON_parse saved with
        | None => w
        | Some parsed =>
            match member parsed "topic" with
            | Throw => w
            | Normal _ =>
                with_app (fun st =>
                  setLessonQuizSummary
                    (or_else (opt_member parsed "lesson") (JStr ""))
                    (or_else (opt_member parsed "quiz") (JArr []))
                    (or_else (opt_member parsed "summary") (JStr ""))
                    (setTopic (or_else (opt_member parsed "topic") (JStr "")) st)) w
            end
        end
  end.

Definition resetAll (w : World) : World :=
  removeItem (with_app (fun st =>
    {| topic := JStr ""; lesson := JStr ""; quiz := JArr []; summary := JStr "";
       selected := ∅; score := None; loading := loading st;
       messages := []; chatInput := ""; chatLoading := chatLoading st |}) w).

Definition clearChat (w : World) : World :=
  with_app (setMessages (fun _ => [])) w.

(** *** The controls that call the handlers (lines 326-340, 496-524, 212-217) *)

(** The topic input: [onKeyDown={(e) => e.key === "Enter" && fetchLesson()}]. *)
Definition topicInput_onKeyDown (key : string) (w : World) : Completion World :=
  if String.eqb key "Enter" then fetchLesson_begin w else Normal w.

(** The button [Generate Lesson], which is [disabled={loading}]. *)
Definition generateButton_onClick (w : World) : Completion World :=
  if loading (app w) then Normal w else fetchLesson_begin w.

(** The chat input. *)
Definition chatInput_onKeyDown (key : string) (w : World) : World :=
  if String.eqb key "Enter" && negb (String.eqb (trim (chatInput (app w))) "")
  then sendChatMessage_begin (app w) (trim (chatInput (app w))) w
  else w.

(** The button [Send], which is [disabled={chatLoading}]. *)
Definition sendButton_onClick (w : World) : World :=
  if chatLoading (app w) then w
  else if String.eqb (trim (chatInput (app w))) "" then w
  else sendChatMessage_begin (app w) (trim (chatInput (app w))) w.

(** [rec.onresult], installed by an effect with an empty dependency list:
    the [sendChatMessage] it calls is the one of the first render, whose
    [messages] and [chatLoading] are the initial ones. *)
Definition recognition_onresult (transcript : string) (w : World) : World :=
  sendChatMessage_begin initialApp transcript (with_app (setChatInput transcript) w).

(** The two inputs: [onChange={(e) => setTopic(e.target.value)}] and
    [onChange={(e) => setChatInput(e.target.value)}]. *)
Definition topicInput_onChange (value : string) (w : World) : World :=
  with_app (setTopic (JStr value)) w.

Definition chatInput_onChange (value : string) (w : World) : World :=
  with_app (setChatInput value) w.

Definition is_assistant (m : ChatTurn) : bool :=
  match role m with
  | assistant => true
  | _ => false
  end.

(** The button [Listen] (lines 362-372): the last assistant turn is
    spoken, or else the lesson when it is truthy, or else an alert is
    shown. *)
Definition listenButton_onClick (w : World) : World :=
  match List.find is_assistant (reverse (messages (app w))) with
  | Some lastAssistant => speakText (content lastAssistant) w
  | None =>
      if truthy (lesson (app w)) then speakText (lesson (app w)) w
      else alert "No assistant response or lesson to speak." w
  end.

(** The button of option [k] of question [i] (lines 387-407), which calls
    [selectOption(i, opt)] with the option it shows.  Where the quiz has
    no such button the click is of nothing.  (A quiz with an item that
    cannot be rendered shows no button at all; the clicks on its other
    items are allowed here all the same.) *)
Definition optionButton_onClick (i k : nat) (w : World) : World :=
  match quiz (app w) with
  | JArr items =>
      match items !! i with
      | Some q =>
          match opt_member q "a" with
          | JArr opts =>
              match opts !! k with
              | Some opt => selectOption i opt w
              | None => w
              end
          | _ => w
          end
      | None => w
      end
  | _ => w
  end.

(** The button [Submit Quiz] (lines 412-422), rendered inside the quiz
    section ([quiz.length > 0]) while [score === null]. *)
Definition submitButton_onClick (w : World) : Completion World :=
  match quiz (app w), score (app w) with
  | JArr (_ :: _), None => submitQuiz w
  | _, _ => Normal w
  end.

End Handlers.

(** ** Specification-level notions *)

(** The validity of a quiz item: an array [a] of exactly three strings,
    no two of them equal, and a [correct] that is one of them. *)
Definition string_of_value (v : JSValue) : option string :=
  match v with
  | JStr s => Some s
  | _ => None
  end.

Definition valid_item (q : JSValue) : bool :=
  match opt_member q "a", opt_member q "correct" with
  | JArr opts, JStr c =>
      match mapM string_of_value opts with
      | Some strs =>
          (length strs =? 3)%nat && bool_decide (NoDup strs) && bool_decide (c ∈ strs)
      | None => false
      end
  | _, _ => false
  end.

(** [a] occurs in [b]. *)
Definition occurs_in (a b : string) : Prop :=
  exists pre post, b = pre +:+ a +:+ post.

Definition failedPrefix : string := Json.text "Lesson generation failed for '".
Definition failedSuffix : string := Json.text "'. Check console.".

(** [p] is an object whose [lesson], [quiz] and [summary] are [l], [q]
    and [s] ([undefined] for a key that is absent). *)
Definition lesson_object (p l q s : JSValue) : Prop :=
  exists props,
    p = JObj props /\ obj_get "lesson" props = l
    /\ obj_get "quiz" props = q /\ obj_get "summary" props = s.

(** The record of a parsed object: its three values, with a [quiz] that
    is not an array replaced by the empty array. *)
Definition record_of (l q s : JSValue) : LessonRecord :=
  {| lr_lesson := l; lr_quiz := if isArray q then q else JArr []; lr_summary := s |}.

(** An item of the quiz that is an object with a [correct] property. *)
Definition has_correct (q : JSValue) : Prop :=
  exists props, q = JObj props /\ obj_get "correct" props <> JUndefined.

(** The option chosen last for index [i] in a sequence of [select] calls. *)
Fixpoint last_choice (calls : list (nat * JSValue)) (i : nat) : option JSValue :=
  match calls with
  | [] => None
  | (j, opt) :: rest =>
      match last_choice rest i with
      | Some later => Some later
      | None => if (j =? i)%nat then Some opt else None
      end
  end.

(** The selection at [i] after the calls, [None] when index [i] has no
    selection: neither before the calls nor by one of them. *)
Definition final_selection (before : gmap nat JSValue) (calls : list (nat * JSValue))
    (i : nat) : option JSValue :=
  match last_choice calls i with
  | Some opt => Some opt
  | None => before !! i
  end.

(** The number of indices whose final selection is the item's [correct];
    an index without a selection does not count. *)
Definition expected_score (before : gmap nat JSValue) (calls : list (nat * JSValue))
    (items : list JSValue) : nat :=
  length (List.filter (fun i =>
            match final_selection before calls i, items !! i with
            | Some opt, Some q => strict_eq opt (opt_member q "correct")
            | _, _ => false
            end) (seq 0 (length items))).

(** The turn a settled chat request appends. *)
Definition reply (outcome : FetchOutcome) : ChatTurn :=
  match outcome with
  | FetchResolves result => mkTurn assistant (rawTextOf result)
  | FetchThrows => chatError
  end.

Section Notions.

Context {J : JSONBuiltin}.

(** [raw] parses as [p]: directly, or, when it does not parse, through
    the bracketed block found in it. *)
Definition parses_as (raw : string) (p : JSValue) : Prop :=
  JSON_parse raw = Some p
  \/ (JSON_parse raw = None
      /\ exists block, match_json_block raw = Some block /\ JSON_parse block = Some p).

(** What [extractJSON] returns for a string, as an option. *)
Definition parsed_of (raw : string) : option JSValue :=
  match JSON_parse raw with
  | Some p => Some p
  | None =>
      match match_json_block raw with
      | Some block => JSON_parse block
      | None => None
      end
  end.

(** The calls of the quiz session. *)
Inductive QuizCall : Type :=
  | Select (i : nat) (opt : JSValue)
  | Submit.

Definition run_call (c : QuizCall) (w : World) : Completion World :=
  match c with
  | Select i opt => Normal (selectOption i opt w)
  | Submit => submitQuiz w
  end.

Fixpoint run_calls (cs : list QuizCall) (w : World) : Completion World :=
  match cs with
  | [] => Normal w
  | c :: rest => w' ← run_call c w; run_calls rest w'
  end.

Definition select_all (calls : list (nat * JSValue)) (w : World) : World :=
  foldl (fun w' c => selectOption (fst c) (snd c) w') w calls.

(** What the component does on an event.  An exception of a handler
    leaves the state as the handler found it. *)
Inductive Event : Type :=
  | Mounted
  | TopicTyped (value : string)
  | TopicKey (key : string)
  | GenerateClicked
  | LessonSettled (t : string) (outcome : FetchOutcome)
  | ChatTyped (value : string)
  | ChatKey (key : string)
  | SendClicked
  | Recognized (transcript : string)
  | ChatSettled (speakResponse : bool) (outcome : FetchOutcome)
  | OptionClicked (i k : nat)
  | SubmitClicked
  | ClearClicked
  | ClearChatClicked
  | ListenClicked.

Definition recover (w : World) (c : Completion World) : World :=
  match c with
  | Normal w' => w'
  | Throw => w
  end.

Definition step (w : World) (e : Event) : World :=
  match e with
  | Mounted => loadProgress w
  | TopicTyped value => topicInput_onChange value w
  | TopicKey key => recover w (topicInput_onKeyDown key w)
  | GenerateClicked => recover w (generateButton_onClick w)
  | LessonSettled t outcome => fetchLesson_settle t outcome w
  | ChatTyped value => chatInput_onChange value w
  | ChatKey key => chatInput_onKeyDown key w
  | SendClicked => sendButton_onClick w
  | Recognized transcript => recognition_onresult transcript w
  | ChatSettled speakResponse outcome => sendChatMessage_settle speakResponse outcome w
  | OptionClicked i k => optionButton_onClick i k w
  | SubmitClicked => recover w (submitButton_onClick w)
  | ClearClicked => resetAll w
  | ClearChatClicked => clearChat w
  | ListenClicked => listenButton_onClick w
  end.

Definition run (events : list Event) (w : World) : World := foldl step w events.

(** An event that is neither the reply to a chat request nor a
    transcript of the recognition. *)
Definition quiet (e : Event) : bool :=
  match e with
  | ChatSettled _ _ | Recognized _ => false
  | _ => true
  end.

End Notions.

(** [c] occurs in [s]. *)
Definition has_char (c : ascii) (s : string) : Prop :=
  exists a b, s = a +:+ String c b.

(** No [opener] of [s] has a [closer] after it. *)
Definition unclosed (opener closer : ascii) (s : string) : Prop :=
  forall a b, s = a +:+ String opener b -> ~ has_char closer b.

(** A text of white-space characters only. *)
Fixpoint blank (s : string) : bool :=
  match s with
  | EmptyString => true
  | String c rest =>
      if is_space c then blank rest
      else
        match rest with
        | String d rest1 =>
            if is_space2 c d then blank rest1
            else
              match rest1 with
              | String e rest2 => is_space3 c d e && blank rest2
              | EmptyString => false
              end
        | EmptyString => false
        end
  end.

(** A byte that continues a character of several bytes. *)
Definition continuation (c : ascii) : bool :=
  (128 <=? nat_of_ascii c) && (nat_of_ascii c <=? 191).

(** [s] is empty or begins with the first byte of a character. *)
Definition at_boundary (s : string) : Prop :=
  match s with
  | String c _ => continuation c = false
  | EmptyString => True
  end.

(** A turn as the handlers append it: a user turn holds a string that is
    not empty, an assistant turn a truthy value or the empty string, and
    no turn of the history has the system role. *)
Definition turn_ok (m : ChatTurn) : Prop :=
  match role m with
  | system => False
  | user => exists s, content m = JStr s /\ s <> ""
  | assistant => truthy (content m) = true \/ content m = JStr ""
  end.

(** A request as the handlers build it: a lesson request is the system
    prompt and one user turn; a chat request is the chat system prompt,
    at most ten turns of history and the new user turn. *)
Definition request_ok (r : Request) : Prop :=
  match r with
  | LessonRequest msgs =>
      exists t, msgs = [mkTurn system (JStr lessonSystemPrompt);
                        mkTurn user (JStr (lessonUserPrompt t))]
  | ChatRequest msgs =>
      exists window userText,
        msgs = mkTurn system (JStr chatSystemPrompt) :: window
               ++ [mkTurn user (JStr userText)]
        /\ length window <= 10 /\ Forall turn_ok window /\ userText <> ""
  end.

(** The history and the requests of a session are as the handlers make
    them. *)
Definition session_ok (w : World) : Prop :=
  Forall turn_ok (messages (app w)) /\ Forall request_ok (requests w).

(** The chat requests among the requests sent. *)
Definition chat_requests (w : World) : list Request :=
  List.filter (fun r => match r with ChatRequest _ => true | _ => false end)
              (requests w).

(** A field that the load effect brings back as it is: [v || d] is [v]. *)
Definition restorable (v d : JSValue) : Prop := or_else v d = v.

(** ** Scenarios *)

(** The body of a reply of the completion endpoint whose message has the
    given content, as [response.json()] returns it. *)
Definition completion (text : string) : JSValue :=
  JObj [("choices",
         JArr [JObj [("index", JNum 0);
                     ("message", JObj [("role", JStr "assistant");
                                       ("content", JStr text)])]])].

(** The body of a reply with an error status. *)
Definition errorBody : JSValue :=
  JObj [("error", JObj [("message", JStr "Invalid API Key");
                        ("type", JStr "invalid_request_error")])].

(** The world after the topic has been typed into a fresh session. *)
Definition typed (t : string) : World :=
  with_app (setTopic (JStr t)) (initialWorld None).

Definition scenarioA_text : string :=
  Json.text "{'lesson':'X is a thing','quiz':[{'q':'Q1','a':['x','y','z'],'correct':'y'}],'summary':'S'}".

Definition scenarioA_item : JSValue :=
  JObj [("q", JStr "Q1"); ("a", JArr [JStr "x"; JStr "y"; JStr "z"]);
        ("correct", JStr "y")].

Definition scenarioA_parsed : JSValue :=
  JObj [("lesson", JStr "X is a thing"); ("quiz", JArr [scenarioA_item]);
        ("summary", JStr "S")].

(** A reply whose [quiz] is [false]. *)
Definition falsy_quiz_text : string :=
  Json.text "{'lesson':'L','quiz':false,'summary':'S'}".

(** A reply whose only quiz item has two equal options and a [correct]
    that is none of them. *)
Definition bad_item_text : string :=
  Json.text "{'lesson':'L','quiz':[{'q':'Q','a':['x','x'],'correct':'z'}],'summary':'S'}".

Definition bad_item : JSValue :=
  JObj [("q", JStr "Q"); ("a", JArr [JStr "x"; JStr "x"]); ("correct", JStr "z")].

(** A reply whose only quiz item has no [correct]. *)
Definition no_correct_text : string :=
  Json.text "{'lesson':'L','quiz':[{'q':'Q','a':['x','y','z']}],'summary':'S'}".

Definition no_correct_item : JSValue :=
  JObj [("q", JStr "Q"); ("a", JArr [JStr "x"; JStr "y"; JStr "z"])].

(** U+00A0, the no-break space, and U+2003, the em space. *)
Definition nbsp : string := String "194" (String "160" "").
Definition emsp : string := String "226" (String "128" (String "131" "")).

(** The session of scenario A once its lesson is shown. *)
Definition scenarioA_shown : World :=
  match fetchLesson (FetchResolves (completion scenarioA_text)) (typed "X") with
  | Normal w => w
  | Throw => typed "X"
  end.

(** ** Properties *)

Section Properties.

Context {J : JSONBuiltin}.

(** *** [extractJSON] and [normalize] *)

Lemma parses_as_parsed_of (raw : string) (p : JSValue) :
  parses_as raw p <-> parsed_of raw = Some p.
Proof.
  unfold parses_as, parsed_of. split.
  - intros [-> | [-> (block & -> & ->)]]; reflexivity.
  - destruct (JSON_parse raw) as [p'|] eqn:Hdirect; [by left|].
    destruct (match_json_block raw) as [block|] eqn:Hblock; [|discriminate].
    intros Hp. right. split; [reflexivity|]. by exists block.
Qed.

Lemma extractJSON_string (raw : string) :
  extractJSON (JStr raw) = Normal (default JNull (parsed_of raw)).
Proof.
  unfold extractJSON, parsed_of. simpl.
  destruct (String.eqb_spec raw "") as [->|Hne]; simpl.
  - by rewrite JSON_parse_empty.
  - destruct (JSON_parse raw); [reflexivity|].
    destruct (match_json_block raw); [|reflexivity].
    by destruct (JSON_parse _).
Qed.

Lemma accepted_lesson_object (p : JSValue) :
  accepted p = true <->
  exists l q s, lesson_object p l q s
                /\ truthy l = true /\ truthy q = true /\ truthy s = true.
Proof.
  unfold accepted, lesson_object. split.
  - intros H. repeat (apply andb_prop in H as [H ?]).
    destruct p; simpl in *; try discriminate.
    eexists _, _, _. split; [by eexists|]. by repeat split.
  - intros (l & q & s & (props & -> & <- & <- & <-) & Hl & Hq & Hs).
    simpl. by rewrite Hl, Hq, Hs.
Qed.

(** C1, as amended: a raw text that parses, directly or through its
    bracketed block, as an object whose [lesson], [quiz] and [summary]
    are all truthy is accepted with exactly those values, the [quiz]
    replaced by the empty array when it is not an array; every other raw
    text is a normalisation failure that carries the raw text. *)
Theorem normalize_string (raw : string) :
  (forall p l q s,
     parses_as raw p -> lesson_object p l q s ->
     truthy l = true -> truthy q = true -> truthy s = true ->
     normalize (JStr raw) = Normal (Accepted p (record_of l q s)))
  /\ ((forall p l q s,
         parses_as raw p -> lesson_object p l q s ->
         truthy l && truthy q && truthy s = false) ->
      normalize (JStr raw) = Normal (NormalizationFailure (JStr raw))).
Proof.
  unfold normalize. rewrite extractJSON_string. simpl. split.
  - intros p l q s Hp Hobj Hl Hq Hs.
    apply parses_as_parsed_of in Hp. rewrite Hp. simpl.
    assert (Hacc : accepted p = true) by (apply accepted_lesson_object; eauto 10).
    rewrite Hacc. destruct Hobj as (props & -> & <- & <- & <-). reflexivity.
  - intros Hnone.
    destruct (accepted (default JNull (parsed_of raw))) eqn:Hacc; [|reflexivity].
    exfalso.
    apply accepted_lesson_object in Hacc as (l & q & s & Hobj & Hl & Hq & Hs).
    destruct (parsed_of raw) as [p|] eqn:Hp.
    + apply parses_as_parsed_of in Hp.
      specialize (Hnone p l q s Hp Hobj). rewrite Hl, Hq, Hs in Hnone. discriminate.
    + destruct Hobj as (props & Hnull & _). discriminate.
Qed.

(** *** [fetchLesson] *)

Lemma fetchLesson_begin_sends (w : World) (t : string) :
  topic (app w) = JStr t -> trim t <> "" ->
  fetchLesson_begin w = Normal (send (lessonRequest t) (with_app clearForNewLesson w)).
Proof.
  intros Ht Hne. unfold fetchLesson_begin. rewrite Ht.
  by destruct (String.eqb_spec (trim t) "").
Qed.

Lemma fetchLesson_runs (outcome : FetchOutcome) (w : World) (t : string) :
  topic (app w) = JStr t -> trim t <> "" ->
  fetchLesson outcome w
  = Normal (fetchLesson_settle t outcome
              (send (lessonRequest t) (with_app clearForNewLesson w))).
Proof.
  intros Ht Hne. unfold fetchLesson. rewrite Ht.
  destruct (String.eqb_spec (trim t) "") as [|_]; [done|].
  by rewrite (fetchLesson_begin_sends w t).
Qed.

(** When the normalisation fails, what is shown is the fallback record. *)
Lemma fetchLesson_settle_fallback (t : string) (result rawText : JSValue) (w : World) :
  normalize (rawTextOf result) = Normal (NormalizationFailure rawText) ->
  fetchLesson_settle t (FetchResolves result) w
  = with_app (setLoading false) (showLesson (synthesize t rawText) w).
Proof. intros H. unfold fetchLesson_settle. by rewrite H. Qed.

(** C2, as amended: when the request throws, [fetchLesson] leaves the
    session in the cleared state it set up before the request (empty
    lesson, quiz, summary, selections and chat history, no score), with
    the topic and the stored item as they were before the call and
    [loading] reset; the request was sent and the connection error is
    shown in an alert. *)
Theorem fetchLesson_request_throws (w : World) (t : string) :
  topic (app w) = JStr t -> trim t <> "" ->
  exists w',
    fetchLesson FetchThrows w = Normal w'
    /\ app w' = {| topic := JStr t; lesson := JStr ""; quiz := JArr [];
                   summary := JStr ""; selected := ∅; score := None;
                   loading := false; messages := [];
                   chatInput := chatInput (app w);
                   chatLoading := chatLoading (app w) |}
    /\ storage w' = storage w
    /\ alerts w' = alerts w ++ [connectError]
    /\ requests w' = requests w ++ [lessonRequest t]
    /\ spoken w' = spoken w.
Proof.
  intros Ht Hne. eexists. split; [by apply fetchLesson_runs|].
  simpl. unfold setLoading, clearForNewLesson. simpl. rewrite Ht. by repeat split.
Qed.

(** *** At most one request at a time *)

(** The guard of [sendChatMessage]: a call from a render in which a chat
    request is outstanding does nothing. *)
Lemma sendChatMessage_begin_busy (r : AppState) (userText : string) (w : World) :
  chatLoading r = true -> sendChatMessage_begin r userText w = w.
Proof.
  intros H. unfold sendChatMessage_begin. rewrite H.
  by destruct (String.eqb userText "").
Qed.

(** Through the chat input and the button [Send], no chat request is sent
    while one is outstanding. *)
Lemma chat_controls_busy (key : string) (w : World) :
  chatLoading (app w) = true ->
  chatInput_onKeyDown key w = w /\ sendButton_onClick w = w.
Proof.
  intros H. unfold chatInput_onKeyDown, sendButton_onClick. rewrite H. split.
  - destruct (_ && _); [|reflexivity]. by apply sendChatMessage_begin_busy.
  - reflexivity.
Qed.

(** The recognition callback is not held back by an outstanding chat
    request: it sends one for every transcript that is not empty, and its
    prompt holds no earlier turn. *)
Lemma recognition_onresult_sends (transcript : string) (w : World) :
  transcript <> "" ->
  requests (recognition_onresult transcript w)
  = requests w ++ [ChatRequest [mkTurn system (JStr chatSystemPrompt);
                                mkTurn user (JStr transcript)]].
Proof.
  intros Hne. unfold recognition_onresult, sendChatMessage_begin.
  by destruct (String.eqb_spec transcript "").
Qed.

(** The button [Generate Lesson] sends nothing while [loading] is set. *)
Lemma generateButton_busy (w : World) :
  loading (app w) = true -> generateButton_onClick w = Normal w.
Proof. intros H. unfold generateButton_onClick. by rewrite H. Qed.

(** The Enter key of the topic input calls [fetchLesson] whatever
    [loading] is. *)
Lemma topicInput_enter_sends (w : World) (t : string) :
  topic (app w) = JStr t -> trim t <> "" ->
  exists w', topicInput_onKeyDown "Enter" w = Normal w'
             /\ requests w' = requests w ++ [lessonRequest t]
             /\ topic (app w') = JStr t /\ loading (app w') = true.
Proof.
  intros Ht Hne. eexists. split.
  - unfold topicInput_onKeyDown. simpl. by apply fetchLesson_begin_sends.
  - by repeat split.
Qed.

(** C3, at the failing input: with the topic typed into a fresh session,
    a first Enter in the topic input sends the lesson request and sets
    [loading]; the button is then inert, but a second Enter sends a second
    lesson request while the first is outstanding. *)
Theorem second_enter_sends_second_request :
  exists w1 w2,
    topicInput_onKeyDown "Enter" (typed "Recursion") = Normal w1
    /\ loading (app w1) = true
    /\ requests w1 = [lessonRequest "Recursion"]
    /\ generateButton_onClick w1 = Normal w1
    /\ topicInput_onKeyDown "Enter" w1 = Normal w2
    /\ requests w2 = [lessonRequest "Recursion"; lessonRequest "Recursion"].
Proof. eexists _, _. repeat split. Qed.

(** *** The quiz session *)

Lemma selectOption_locked (i : nat) (opt : JSValue) (w : World) :
  is_Some (score (app w)) -> selectOption i opt w = w.
Proof. intros [s Hs]. unfold selectOption. by rewrite Hs. Qed.

Lemma selectOption_open (i : nat) (opt : JSValue) (w : World) :
  score (app w) = None ->
  score (app (selectOption i opt w)) = None
  /\ quiz (app (selectOption i opt w)) = quiz (app w)
  /\ selected (app (selectOption i opt w)) = <[i := opt]> (selected (app w)).
Proof. intros Hs. unfold selectOption. rewrite Hs. by repeat split. Qed.

Lemma select_all_open (calls : list (nat * JSValue)) (w : World) :
  score (app w) = None ->
  score (app (select_all calls w)) = None
  /\ quiz (app (select_all calls w)) = quiz (app w)
  /\ forall i, selected (app (select_all calls w)) !! i
               = final_selection (selected (app w)) calls i.
Proof.
  revert w. induction calls as [|[j opt] calls IH]; intros w Hs.
  - by repeat split.
  - destruct (selectOption_open j opt w Hs) as (Hs' & Hq' & Hsel').
    destruct (IH (selectOption j opt w) Hs') as (Hs'' & Hq'' & Hsel'').
    unfold select_all in *. simpl.
    split; [done|]. split; [congruence|].
    intros i. rewrite Hsel'', Hsel'. unfold final_selection. simpl.
    destruct (last_choice calls i); [reflexivity|].
    rewrite lookup_insert. case_decide as Hji.
    + by rewrite (proj2 (Nat.eqb_eq j i) Hji).
    + by rewrite (proj2 (Nat.eqb_neq j i) Hji).
Qed.

(** The loop of [submitQuiz] counts the indices whose selection is the
    [correct] of the item, when no item is [null]. *)
Lemma countCorrect_counts (sel : gmap nat JSValue) (all : list JSValue) :
  forall (items : list JSValue) (i s : nat),
    (forall k q, items !! k = Some q -> all !! (i + k) = Some q /\ has_correct q) ->
    countCorrect sel i items s
    = Normal (s + length (List.filter (fun k =>
                match all !! k with
                | Some q => strict_eq (selection sel k) (opt_member q "correct")
                | None => false
                end) (seq i (length items)))).
Proof.
  induction items as [|q items IH]; intros i s Hall; simpl.
  - f_equal. lia.
  - destruct (Hall 0 q eq_refl) as [Hq (props & -> & Hc)].
    rewrite Nat.add_0_r in Hq. rewrite Hq. simpl.
    rewrite IH.
    + destruct (strict_eq _ _); simpl; f_equal; lia.
    + intros k q' Hk. replace (S i + k) with (i + S k) by lia. by apply Hall.
Qed.

Lemma strict_eq_undefined (c : JSValue) :
  c <> JUndefined -> strict_eq JUndefined c = false.
Proof. by destruct c. Qed.

(** C6: after any sequence of [select] calls on an open session whose
    quiz items each have a [correct] property, [submit] on an empty quiz
    changes nothing and sets no score, and on a quiz that is not empty it
    sets the score to the number of indices whose final selection is the
    item's [correct]; an index without a selection is not counted. *)
Theorem submitQuiz_score (w : World) (items : list JSValue)
    (calls : list (nat * JSValue)) :
  quiz (app w) = JArr items ->
  score (app w) = None ->
  Forall has_correct items ->
  (items = [] ->
   submitQuiz (select_all calls w) = Normal (select_all calls w)
   /\ score (app (select_all calls w)) = None)
  /\ (items <> [] ->
      exists w',
        submitQuiz (select_all calls w) = Normal w'
        /\ score (app w') = Some (expected_score (selected (app w)) calls items)
        /\ selected (app w') = selected (app (select_all calls w))).
Proof.
  intros Hquiz Hscore Hitems.
  destruct (select_all_open calls w Hscore) as (Hs & Hq & Hsel).
  unfold submitQuiz. rewrite Hq, Hquiz. split.
  - intros ->. by split.
  - intros Hne. destruct items as [|q0 items0] eqn:Eitems; [done|].
    rewrite <- Eitems in *. replace (length items =? 0) with false
      by (subst items; reflexivity).
    rewrite (countCorrect_counts _ items items 0 0).
    + eexists. split; [reflexivity|]. split; [|reflexivity].
      simpl. f_equal. unfold expected_score. f_equal.
      apply List.filter_ext_in. intros k Hk.
      apply in_seq in Hk as [_ Hk]. simpl in Hk.
      destruct (lookup_lt_is_Some_2 items k Hk) as [q Hqk]. rewrite Hqk.
      unfold selection. rewrite Hsel.
      destruct (final_selection _ _ _); [reflexivity|]. simpl.
      apply strict_eq_undefined.
      rewrite Forall_lookup in Hitems.
      destruct (Hitems k q Hqk) as (props & -> & Hc). exact Hc.
    + intros k q Hk. split; [exact Hk|].
      rewrite Forall_lookup in Hitems. by eapply Hitems.
Qed.

(** A second [submitQuiz] recomputes the same score from the same
    selections and writes the same item. *)
Lemma submitQuiz_again (w w1 : World) :
  submitQuiz w = Normal w1 -> submitQuiz w1 = Normal w1.
Proof.
  unfold submitQuiz. destruct w as [st sto al rq sp]. simpl.
  destruct (quiz st) as [| | | |str|items|props] eqn:Hquiz; try discriminate.
  - destruct (String.eqb str "") eqn:Hempty; [|discriminate].
    intros [= <-]. simpl. by rewrite Hquiz, Hempty.
  - destruct (length items =? 0) eqn:Hlen.
    + intros [= <-]. simpl. by rewrite Hquiz, Hlen.
    + destruct (countCorrect (selected st) 0 items 0) as [s|] eqn:Hcount;
        [|discriminate].
      intros [= <-]. simpl. rewrite Hquiz, Hlen, Hcount. reflexivity.
  - destruct (strict_eq (obj_get "length" props) (JNum 0)) eqn:Hlen; [|discriminate].
    intros [= <-]. simpl. by rewrite Hquiz, Hlen.
Qed.

(** C7: a session whose score is set ignores every [select]; and once a
    [submit] has set the score, any further sequence of [select] and
    [submit] calls leaves the whole session, its score and selections
    included, as that [submit] left it. *)
Theorem quiz_locked_after_submit :
  (forall (w : World) (i : nat) (opt : JSValue),
     is_Some (score (app w)) -> selectOption i opt w = w)
  /\ (forall (w w1 : World),
        submitQuiz w = Normal w1 -> is_Some (score (app w1)) ->
        forall calls : list QuizCall, run_calls calls w1 = Normal w1).
Proof.
  split; [intros w i opt; apply selectOption_locked|].
  intros w w1 Hsubmit Hscore calls.
  induction calls as [|[i opt|] calls IH]; simpl; [reflexivity| |].
  - by rewrite selectOption_locked.
  - by rewrite (submitQuiz_again w w1 Hsubmit).
Qed.

(** *** The chat history *)

Lemma sendChatMessage_settle_messages (speak : bool) (outcome : FetchOutcome)
    (w : World) :
  messages (app (sendChatMessage_settle speak outcome w))
  = messages (app w) ++ [reply outcome].
Proof.
  unfold sendChatMessage_settle. destruct outcome as [|result]; simpl; [reflexivity|].
  by destruct (speak && truthy (rawTextOf result)).
Qed.

Lemma reply_assistant (outcome : FetchOutcome) : role (reply outcome) = assistant.
Proof. by destruct outcome. Qed.

(** C10: a call of [sendChatMessage] that passes its guard appends the
    user turn when it is made, and one assistant turn to whatever the
    history is when the request settles; run without anything in
    between, it appends exactly these two turns in this order, and the
    history ends with the assistant turn.  The assistant turn holds the
    fixed message when the request throws; otherwise the content of the
    message of the first choice of the reply when that is truthy, or
    else the [text] of the first choice when that is truthy, or else the
    empty text; for a reply whose first choice has a message with a
    content string that is not empty, it holds that string. *)
Theorem sendChatMessage_two_turns (r : AppState) (w : World) (userText : string)
    (speak : bool) (outcome : FetchOutcome) :
  userText <> "" -> chatLoading r = false ->
  messages (app (sendChatMessage_begin r userText w))
  = messages (app w) ++ [mkTurn user (JStr userText)]
  /\ (forall w2 : World,
        messages (app (sendChatMessage_settle speak outcome w2))
        = messages (app w2) ++ [reply outcome]
        /\ last (messages (app (sendChatMessage_settle speak outcome w2)))
           = Some (reply outcome))
  /\ messages (app (sendChatMessage_settle speak outcome
                      (sendChatMessage_begin r userText w)))
     = messages (app w) ++ [mkTurn user (JStr userText); reply outcome]
  /\ role (reply outcome) = assistant
  /\ (outcome = FetchThrows ->
      content (reply outcome)
      = JStr "Sorry â€” there was an error fetching a response. Check console.")
  /\ (forall result,
        outcome = FetchResolves result ->
        let choice := opt_index0 (opt_member result "choices") in
        let said := opt_member (opt_member choice "message") "content" in
        let text := opt_member choice "text" in
        content (reply outcome)
        = if truthy said then said else if truthy text then text else JStr "")
  /\ (forall props choice others message s,
        outcome = FetchResolves (JObj props) ->
        obj_get "choices" props = JArr (JObj choice :: others) ->
        obj_get "message" choice = JObj message ->
        obj_get "content" message = JStr s -> s <> "" ->
        reply outcome = mkTurn assistant (JStr s)).
Proof.
  intros Hne Hidle.
  assert (Hbegin : messages (app (sendChatMessage_begin r userText w))
                   = messages (app w) ++ [mkTurn user (JStr userText)]).
  { unfold sendChatMessage_begin. rewrite Hidle.
    by destruct (String.eqb_spec userText ""). }
  split; [exact Hbegin|]. split.
  { intros w2. rewrite sendChatMessage_settle_messages.
    split; [reflexivity|]. apply last_snoc. }
  split.
  { rewrite sendChatMessage_settle_messages, Hbegin. by rewrite <- app_assoc. }
  split; [apply reply_assistant|].
  split; [by intros ->|]. split.
  - intros result -> choice said text. subst choice said text. simpl.
    unfold rawTextOf, or_else.
    destruct (truthy (opt_member (opt_member _ "message") "content")) eqn:Hsaid.
    + by rewrite Hsaid.
    + reflexivity.
  - intros props choice others message s -> Hchoices Hmessage Hcontent Hs.
    simpl. unfold rawTextOf, or_else. simpl.
    rewrite Hchoices. simpl. rewrite Hmessage. simpl. rewrite Hcontent. simpl.
    destruct (String.eqb_spec s "") as [|_]; [done|]. simpl.
    by destruct (String.eqb_spec s "").
Qed.

(** *** The window of the prompt *)

Lemma copy_turns (l : list ChatTurn) :
  map (fun m => {| role := role m; content := content m |}) l = l.
Proof.
  induction l as [|[r c] l IH]; simpl; [reflexivity|]. by rewrite IH.
Qed.

Lemma slice_last {A} (n : nat) (l : list A) :
  slice (- Z.of_nat (S n)) l = drop (length l - S n) l.
Proof.
  unfold slice.
  replace (- Z.of_nat (S n) <? 0)%Z with true by (symmetry; apply Z.ltb_lt; lia).
  f_equal. lia.
Qed.

Lemma windowForPrompt_drop (history : list ChatTurn) :
  windowForPrompt history = drop (length history - 10) history.
Proof.
  unfold windowForPrompt. rewrite copy_turns. apply (slice_last 9).
Qed.

(** C8: the window holds at most 10 turns, as many as the history has up
    to 10, and the history is some older turns followed by the window:
    the window is the last turns of the history, in their order (its
    entry [i] is the entry [length history - 10 + i] of the history). *)
Theorem windowForPrompt_last_ten (history : list ChatTurn) :
  length (windowForPrompt history) <= 10
  /\ length (windowForPrompt history) = Nat.min (length history) 10
  /\ history = take (length history - 10) history ++ windowForPrompt history
  /\ forall i : nat,
       windowForPrompt history !! i = history !! (length history - 10 + i).
Proof.
  rewrite windowForPrompt_drop, length_drop.
  split; [lia|]. split; [lia|]. split.
  - by rewrite take_drop.
  - intros i. by rewrite lookup_drop.
Qed.

(** *** The fallback lesson *)

Lemma or_else_string (raw : string) (v : JSValue) :
  or_else (JStr raw) v = if String.eqb raw "" then v else JStr raw.
Proof. unfold or_else. simpl. by destruct (String.eqb raw ""). Qed.

(** C5: for every topic and every raw text, the fallback record has a
    quiz of exactly two items; its lesson is the raw text when that is not
    empty, and otherwise the failure message, in which the topic occurs;
    its summary is the fixed sentence that starts with the topic. *)
Theorem synthesize_record (t raw : string) :
  (exists q1 q2, lr_quiz (synthesize t (JStr raw)) = JArr [q1; q2])
  /\ lr_lesson (synthesize t (JStr raw))
     = (if String.eqb raw "" then JStr (failedPrefix +:+ t +:+ failedSuffix)
        else JStr raw)
  /\ occurs_in t (failedPrefix +:+ t +:+ failedSuffix)
  /\ lr_summary (synthesize t (JStr raw))
     = JStr (t +:+ " helps developers write clean and maintainable code.")
  /\ occurs_in t (t +:+ " helps developers write clean and maintainable code.").
Proof.
  split; [by eexists _, _|].
  split; [apply or_else_string|].
  split; [by exists failedPrefix, failedSuffix|].
  split; [reflexivity|].
  by exists "", " helps developers write clean and maintainable code.".
Qed.

(** C4, as amended: the two items of the fallback quiz each have exactly
    three options, all strings and no two equal, and a correct option
    that is one of the three, whatever the topic and the raw text. *)
Theorem synthesize_items_valid (t : string) (rawText : JSValue) :
  exists q1 q2,
    lr_quiz (synthesize t rawText) = JArr [q1; q2]
    /\ valid_item q1 = true /\ valid_item q2 = true.
Proof. eexists _, _. split; [reflexivity|]. split; vm_compute; reflexivity. Qed.

(** *** Loading the stored session *)

(** The load effect sets the topic, the lesson, the quiz and the summary
    and nothing else: the selections, the score and the chat history are
    those of the first render. *)
Lemma loadProgress_keeps (w : World) :
  selected (app (loadProgress w)) = selected (app w)
  /\ score (app (loadProgress w)) = score (app w)
  /\ messages (app (loadProgress w)) = messages (app w).
Proof.
  unfold loadProgress. destruct (storage w) as [saved|]; [|done].
  destruct (String.eqb saved ""); [done|].
  destruct (JSON_parse saved) as [parsed|]; [|done].
  by destruct (member parsed "topic").
Qed.

End Properties.

(** ** The scenarios, run *)

(** Scenario A: the reply is accepted as it is, and selecting [y] for the
    first question and submitting gives the score 1. *)
Lemma normalize_string_scenarioA :
  normalize (JStr scenarioA_text)
  = Normal (Accepted scenarioA_parsed
              (record_of (JStr "X is a thing") (JArr [scenarioA_item]) (JStr "S"))).
Proof.
  apply (proj1 (normalize_string scenarioA_text)).
  - left. vm_compute. reflexivity.
  - eexists. repeat split.
  - reflexivity.
  - reflexivity.
  - reflexivity.
Defined.

(** C1, the claim as stated fails: a reply that parses as an object with
    a lesson and a summary that are not empty and the value [false] for
    [quiz] is not accepted with an empty quiz; it is a normalisation
    failure. *)
Lemma normalize_rejects_falsy_quiz :
  parses_as falsy_quiz_text
    (JObj [("lesson", JStr "L"); ("quiz", JBool false); ("summary", JStr "S")])
  /\ normalize (JStr falsy_quiz_text)
     = Normal (NormalizationFailure (JStr falsy_quiz_text)).
Proof. split; [left|]; vm_compute; reflexivity. Qed.

(** Scenario B: prose without a block is shown as the lesson, with the
    two fallback items. *)
Example scenarioB_fallback :
  exists w',
    fetchLesson (FetchResolves (completion "Sorry, I can't help with that."))
                (typed "Recursion") = Normal w'
    /\ lesson (app w') = JStr "Sorry, I can't help with that."
    /\ quiz (app w') = lr_quiz (synthesize "Recursion" (JStr ""))
    /\ storage w' = None.
Proof. eexists. split; [vm_compute; reflexivity|]. by repeat split. Qed.

(** C2, the claim as stated fails: with the lesson of scenario A shown,
    a generation whose request throws leaves an empty lesson and an empty
    quiz, not the lesson and quiz shown before the call. *)
Lemma request_throws_clears_lesson :
  lesson (app scenarioA_shown) = JStr "X is a thing"
  /\ quiz (app scenarioA_shown) = JArr [scenarioA_item]
  /\ exists w',
       fetchLesson FetchThrows scenarioA_shown = Normal w'
       /\ lesson (app w') = JStr "" /\ quiz (app w') = JArr []
       /\ app w' <> app scenarioA_shown.
Proof.
  split; [vm_compute; reflexivity|]. split; [vm_compute; reflexivity|].
  eexists. split; [vm_compute; reflexivity|].
  split; [reflexivity|]. split; [reflexivity|].
  intros H. apply (f_equal lesson) in H. vm_compute in H. discriminate.
Qed.

Lemma fetchLesson_request_throws_scenarioA :
  exists w',
    fetchLesson FetchThrows scenarioA_shown = Normal w'
    /\ lesson (app w') = JStr "" /\ loading (app w') = false
    /\ storage w' = storage scenarioA_shown
    /\ alerts w' = [connectError].
Proof.
  destruct (fetchLesson_request_throws scenarioA_shown "X")
    as (w' & Hrun & Happ & Hsto & Hal & _).
  - vm_compute. reflexivity.
  - vm_compute. discriminate.
  - exists w'. rewrite Happ. repeat split; assumption.
Defined.

(** A reply with an error status and a JSON body does not throw: no
    alert is shown and the fallback lesson appears. *)
Example error_status_shows_fallback :
  exists w',
    fetchLesson (FetchResolves errorBody) (typed "X") = Normal w'
    /\ alerts w' = []
    /\ lesson (app w') = JStr (failedPrefix +:+ "X" +:+ failedSuffix).
Proof. eexists. split; [vm_compute; reflexivity|]. by split. Qed.

(** The recognition callback sends a second chat request while one is
    outstanding, where the chat input does not. *)
Example recognition_sends_while_busy :
  let w1 := sendChatMessage_begin (app (typed "X")) "first" (typed "X") in
  chatLoading (app w1) = true
  /\ length (requests w1) = 1
  /\ chatInput_onKeyDown "Enter" (with_app (setChatInput "second") w1)
     = with_app (setChatInput "second") w1
  /\ length (requests (recognition_onresult "second" w1)) = 2.
Proof. repeat split. Qed.

(** C4, the claim as stated fails: the item of an accepted reply is shown
    as it came, with two equal options and a [correct] that is none of
    them. *)
Lemma normalized_item_not_validated :
  exists w',
    fetchLesson (FetchResolves (completion bad_item_text)) (typed "X") = Normal w'
    /\ quiz (app w') = JArr [bad_item]
    /\ valid_item bad_item = false.
Proof. eexists. split; [vm_compute; reflexivity|]. split; reflexivity. Qed.

Lemma submitQuiz_score_scenarioA :
  exists w',
    submitQuiz (select_all [(0, JStr "y")] scenarioA_shown) = Normal w'
    /\ score (app w') = Some 1.
Proof.
  destruct (submitQuiz_score scenarioA_shown [scenarioA_item] [(0, JStr "y")])
    as [_ Hsubmit].
  - vm_compute. reflexivity.
  - vm_compute. reflexivity.
  - constructor; [|constructor]. eexists. split; [reflexivity|discriminate].
  - destruct Hsubmit as (w' & Hrun & Hscore & _); [discriminate|].
    exists w'. split; [exact Hrun|exact Hscore].
Defined.

(** C6, the claim as stated fails: the item of an accepted reply has no
    [correct]; with no selection at all the submission sets the score 1,
    where the number of indices whose selection is the item's [correct],
    an index without a selection not counting, is 0. *)
Lemma unanswered_counts_without_correct :
  exists w w',
    fetchLesson (FetchResolves (completion no_correct_text)) (typed "X") = Normal w
    /\ quiz (app w) = JArr [no_correct_item]
    /\ selected (app (select_all [] w)) = ∅
    /\ submitQuiz (select_all [] w) = Normal w'
    /\ score (app w') = Some 1
    /\ expected_score ∅ [] [no_correct_item] = 0.
Proof.
  eexists _, _. split; [vm_compute; reflexivity|].
  split; [reflexivity|]. split; [reflexivity|].
  split; [vm_compute; reflexivity|]. split; reflexivity.
Qed.

(** An item without [correct] is the case the hypothesis on the items
    excludes: [undefined === undefined] holds, and its index counts
    without a selection. *)
Example item_without_correct :
  let w := with_app (setLessonQuizSummary (JStr "L")
                       (JArr [JObj [("q", JStr "Q"); ("a", JArr [JStr "x"])]])
                       (JStr "S")) (typed "X") in
  exists w', submitQuiz w = Normal w' /\ score (app w') = Some 1.
Proof. eexists. split; [vm_compute; reflexivity|reflexivity]. Qed.

Lemma quiz_locked_scenarioA :
  exists w1,
    submitQuiz (selectOption 0 (JStr "y") scenarioA_shown) = Normal w1
    /\ run_calls [Select 0 (JStr "x"); Submit; Select 0 (JStr "z")] w1 = Normal w1.
Proof.
  destruct (submitQuiz (selectOption 0 (JStr "y") scenarioA_shown)) as [w1|] eqn:Hrun.
  - exists w1. split; [reflexivity|].
    apply (proj2 quiz_locked_after_submit _ w1 Hrun).
    vm_compute in Hrun. injection Hrun as <-. by eexists.
  - vm_compute in Hrun. discriminate.
Defined.

(** C9, at the failing input: the item written by the submission of
    scenario A holds the selections and the score, and loading it into a
    fresh session brings back the topic, the lesson, the quiz and the
    summary, but neither the selections nor the score (nor any chat
    turn). *)
Theorem reload_drops_selections_and_score :
  exists w2 saved parsed,
    submitQuiz (selectOption 0 (JStr "y") scenarioA_shown) = Normal w2
    /\ selected (app w2) = {[ 0 := JStr "y" ]} /\ score (app w2) = Some 1
    /\ storage w2 = Some saved
    /\ JSON_parse saved = Some parsed
    /\ opt_member parsed "selected" = JObj [("0", JStr "y")]
    /\ opt_member parsed "score" = JNum 1
    /\ topic (app (loadProgress (initialWorld (Some saved)))) = JStr "X"
    /\ lesson (app (loadProgress (initialWorld (Some saved)))) = JStr "X is a thing"
    /\ quiz (app (loadProgress (initialWorld (Some saved)))) = JArr [scenarioA_item]
    /\ summary (app (loadProgress (initialWorld (Some saved)))) = JStr "S"
    /\ selected (app (loadProgress (initialWorld (Some saved)))) = ∅
    /\ score (app (loadProgress (initialWorld (Some saved)))) = None
    /\ messages (app (loadProgress (initialWorld (Some saved)))) = [].
Proof.
  eexists _, _, _.
  split; [vm_compute; reflexivity|].
  split; [vm_compute; reflexivity|].
  split; [reflexivity|].
  split; [reflexivity|].
  split; [vm_compute; reflexivity|].
  repeat split; vm_compute; reflexivity.
Qed.

Lemma sendChatMessage_two_turns_run :
  messages (app (sendChatMessage_settle true (FetchResolves (completion "Because."))
                   (sendChatMessage_begin (app (typed "X")) "Why?" (typed "X"))))
  = [mkTurn user (JStr "Why?"); mkTurn assistant (JStr "Because.")]
  /\ messages (app (sendChatMessage_settle true FetchThrows
                      (sendChatMessage_begin (app (typed "X")) "Why?" (typed "X"))))
     = [mkTurn user (JStr "Why?");
        mkTurn assistant
          (JStr "Sorry â€” there was an error fetching a response. Check console.")].
Proof.
  split.
  - destruct (sendChatMessage_two_turns (app (typed "X")) (typed "X") "Why?" true
                (FetchResolves (completion "Because.")))
      as (_ & _ & Hboth & _ & _ & _ & Hsaid).
    + discriminate.
    + reflexivity.
    + rewrite Hboth.
      rewrite (Hsaid _ _ _ _ "Because." eq_refl eq_refl eq_refl eq_refl);
        [reflexivity|discriminate].
  - destruct (sendChatMessage_two_turns (app (typed "X")) (typed "X") "Why?" true
                FetchThrows) as (_ & _ & Hboth & Hrole & Hthrown & _).
    + discriminate.
    + reflexivity.
    + rewrite Hboth. specialize (Hthrown eq_refl).
      destruct (reply FetchThrows) as [role0 content0]. simpl in *. by subst.
Defined.

(** ** Further properties of the handlers *)

Section BlockExtraction.

Lemma append_cons (c : ascii) (a b : string) :
  String c a +:+ b = String c (a +:+ b).
Proof. reflexivity. Qed.

Lemma append_assoc (a b c : string) : (a +:+ b) +:+ c = a +:+ (b +:+ c).
Proof.
  induction a as [|x a IH]; [reflexivity|]. rewrite !append_cons. by rewrite IH.
Qed.

Lemma append_nil_r (a : string) : a +:+ "" = a.
Proof. induction a as [|x a IH]; [reflexivity|]. rewrite append_cons. by rewrite IH. Qed.

Lemma has_char_cons (c x : ascii) (s : string) :
  has_char c (String x s) <-> x = c \/ has_char c s.
Proof.
  split.
  - intros (a & b & H). destruct a as [|y a].
    + change ("" +:+ String c b) with (String c b) in H.
      injection H as -> ->. by left.
    + rewrite append_cons in H. injection H as -> ->. right. by exists a, b.
  - intros [->|(a & b & ->)].
    + by exists "", s.
    + by exists (String x a), b.
Qed.

Lemma has_char_nil (c : ascii) : ~ has_char c "".
Proof. intros (a & b & H). by destruct a. Qed.

(** [upto_last] cuts the text after the last closer. *)
Lemma upto_last_Some (closer : ascii) (s pre : string) :
  upto_last closer s = Some pre ->
  exists mid post,
    pre = mid +:+ String closer "" /\ s = pre +:+ post /\ ~ has_char closer post.
Proof.
  revert pre. induction s as [|c s IH]; intros pre; simpl; [discriminate|].
  destruct (upto_last closer s) as [pre'|] eqn:Hrest.
  - intros [= <-]. destruct (IH pre' eq_refl) as (mid & post & -> & -> & Hpost).
    by exists (String c mid), post.
  - destruct (Ascii.eqb_spec c closer) as [->|Hne]; [|discriminate].
    intros [= <-]. exists "", s. split; [reflexivity|]. split; [reflexivity|].
    clear IH. revert Hrest. generalize closer. clear.
    induction s as [|x s IH]; intros closer Hrest; [apply has_char_nil|].
    simpl in Hrest. destruct (upto_last closer s) eqn:Hs; [discriminate|].
    destruct (Ascii.eqb_spec x closer) as [|Hx]; [discriminate|].
    rewrite has_char_cons. intros [?|?]; [done|]. by eapply IH.
Qed.

Lemma upto_last_None (closer : ascii) (s : string) :
  upto_last closer s = None <-> ~ has_char closer s.
Proof.
  induction s as [|x s IH]; simpl.
  - split; [intros _; apply has_char_nil|done].
  - rewrite has_char_cons. destruct (upto_last closer s) as [pre|] eqn:Hrest.
    + split; [discriminate|]. intros H. exfalso. apply H. right.
      destruct (upto_last_Some _ _ _ Hrest) as (mid & post & -> & -> & _).
      exists mid, post. by rewrite append_assoc.
    + destruct IH as [IH _]. specialize (IH eq_refl).
      destruct (Ascii.eqb_spec x closer) as [->|Hx].
      * split; [discriminate|]. intros H. exfalso. apply H. by left.
      * split; [|done]. by intros _ [?|?].
Qed.

Lemma unclosed_cons (opener closer x : ascii) (s : string) :
  unclosed opener closer (String x s)
  <-> (x = opener -> ~ has_char closer s) /\ unclosed opener closer s.
Proof.
  unfold unclosed. split.
  - intros H. split.
    + intros ->. by apply (H "" s).
    + intros a b ->. by apply (H (String x a) b).
  - intros [Hhere Hrest] a b Hs. destruct a as [|y a].
    + change ("" +:+ String opener b) with (String opener b) in Hs.
      injection Hs as -> ->. by apply Hhere.
    + rewrite append_cons in Hs. injection Hs as -> ->. by apply (Hrest a b).
Qed.

Lemma unclosed_nil (opener closer : ascii) : unclosed opener closer "".
Proof. intros a b H. by destruct a. Qed.

(** X2: the pattern finds no block exactly in the texts in which no
    opening brace has a closing brace after it and no opening bracket has
    a closing bracket after it. *)
Theorem match_json_block_None (s : string) :
  match_json_block s = None
  <-> unclosed "{" "}" s /\ unclosed "[" "]" s.
Proof.
  induction s as [|c s IH]; simpl.
  - split; [|done]. intros _. split; apply unclosed_nil.
  - rewrite !unclosed_cons.
    destruct (Ascii.eqb_spec c "{") as [->|Hbrace].
    + destruct (upto_last "}" s) as [pre|] eqn:Hlast.
      * split; [discriminate|]. intros [[Hhere _] _]. exfalso.
        apply (proj2 (upto_last_None "}" s)) in Hhere; [congruence|reflexivity].
      * apply upto_last_None in Hlast. rewrite IH. split.
        -- intros [? ?]. repeat split; try done.
        -- intros [[_ ?] [_ ?]]. done.
    + destruct (Ascii.eqb_spec c "[") as [->|Hbracket].
      * destruct (upto_last "]" s) as [pre|] eqn:Hlast.
        -- split; [discriminate|]. intros [_ [Hhere _]]. exfalso.
           apply (proj2 (upto_last_None "]" s)) in Hhere; [congruence|reflexivity].
        -- apply upto_last_None in Hlast. rewrite IH. split.
           ++ intros [? ?]. repeat split; try done.
           ++ intros [[_ ?] [_ ?]]. done.
      * rewrite IH. split.
        -- intros [? ?]. repeat split; try done.
        -- intros [[_ ?] [_ ?]]. done.
Qed.

(** X1: a block the pattern finds is a piece of the text that opens
    with a brace and ends with the last closing brace of the text, or
    opens with a bracket and ends with the last closing bracket; and it
    is the first such piece: before it the text holds no opener that has
    its closer somewhere after it. *)
Theorem match_json_block_Some (s block : string) :
  match_json_block s = Some block ->
  exists pre mid post,
    s = pre +:+ block +:+ post
    /\ ((block = String "{" (mid +:+ "}") /\ ~ has_char "}" post)
        \/ (block = String "[" (mid +:+ "]") /\ ~ has_char "]" post))
    /\ (forall a b, pre = a +:+ String "{" b -> ~ has_char "}" (b +:+ block +:+ post))
    /\ (forall a b, pre = a +:+ String "[" b -> ~ has_char "]" (b +:+ block +:+ post)).
Proof.
  revert block. induction s as [|c s IH]; intros block; simpl; [discriminate|].
  assert (Hskip : match_json_block s = Some block ->
                  (c = "{"%char -> ~ has_char "}" s) ->
                  (c = "["%char -> ~ has_char "]" s) ->
                  exists pre mid post,
                    String c s = pre +:+ block +:+ post
                    /\ ((block = String "{" (mid +:+ "}") /\ ~ has_char "}" post)
                        \/ (block = String "[" (mid +:+ "]") /\ ~ has_char "]" post))
                    /\ (forall a b, pre = a +:+ String "{" b ->
                                    ~ has_char "}" (b +:+ block +:+ post))
                    /\ (forall a b, pre = a +:+ String "[" b ->
                                    ~ has_char "]" (b +:+ block +:+ post))).
  { intros Hrest Hbrace Hbracket.
    destruct (IH block Hrest) as (pre & mid & post & Hs & Hshape & Hl1 & Hl2).
    exists (String c pre), mid, post. split; [by rewrite append_cons, <- Hs|].
    split; [exact Hshape|].
    split; intros a b Hpre; (destruct a as [|y a];
      [ change ("" +:+ ?x) with x in Hpre; injection Hpre as -> ->; rewrite <- Hs; auto
      | rewrite append_cons in Hpre; injection Hpre as -> ->; eauto ]). }
  assert (Hhere : forall opener closer found,
            c = opener -> upto_last closer s = Some found ->
            exists mid post,
              String c s = "" +:+ String opener found +:+ post
              /\ String opener found = String opener (mid +:+ String closer "")
              /\ ~ has_char closer post).
  { intros opener closer found -> Hfound.
    destruct (upto_last_Some _ _ _ Hfound) as (mid & post & -> & -> & Hpost).
    by exists mid, post. }
  destruct (Ascii.eqb_spec c "{") as [->|Hbrace].
  - destruct (upto_last "}" s) as [found|] eqn:Hlast.
    + intros [= <-].
      destruct (Hhere _ _ _ eq_refl Hlast) as (mid & post & Hs & Hb & Hpost).
      exists "", mid, post. split; [exact Hs|]. split; [by left|].
      split; intros a b Ha; by destruct a.
    + intros Hrest. apply Hskip; [exact Hrest| |].
      * intros _. by apply upto_last_None.
      * discriminate.
  - destruct (Ascii.eqb_spec c "[") as [->|Hbracket].
    + destruct (upto_last "]" s) as [found|] eqn:Hlast.
      * intros [= <-].
        destruct (Hhere _ _ _ eq_refl Hlast) as (mid & post & Hs & Hb & Hpost).
        exists "", mid, post. split; [exact Hs|]. split; [by right|].
        split; intros a b Ha; by destruct a.
      * intros Hrest. apply Hskip; [exact Hrest| |].
        -- discriminate.
        -- intros _. by apply upto_last_None.
    + intros Hrest. by apply Hskip.
Qed.

End BlockExtraction.

Section WhiteSpace.

Lemma is_space_start (c : ascii) : is_space c = true -> continuation c = false.
Proof. destruct c as [[] [] [] [] [] [] [] []]; vm_compute; done. Qed.

Ltac bytes_to_nat :=
  unfold is_space2, is_space3, continuation, byte;
  repeat match goal with
         | |- context [nat_of_ascii ?c] => generalize (nat_of_ascii c); intro
         end;
  repeat first [ rewrite orb_true_iff | rewrite andb_true_iff
               | rewrite andb_false_iff | rewrite Nat.eqb_eq
               | rewrite Nat.leb_le | rewrite Nat.leb_gt ];
  lia.

Lemma is_space2_bytes (c d : ascii) :
  is_space2 c d = true -> continuation c = false /\ continuation d = true.
Proof. bytes_to_nat. Qed.

Lemma is_space3_bytes (c d e : ascii) :
  is_space3 c d e = true ->
  continuation c = false /\ continuation d = true /\ continuation e = true.
Proof. bytes_to_nat. Qed.

Lemma strip_space_length (s r : string) :
  strip_space s = Some r -> String.length r < String.length s.
Proof.
  destruct s as [|c [|d [|e rest]]]; simpl; try discriminate;
    repeat (case_match; try discriminate); intros [= <-]; simpl; lia.
Qed.

(** Induction along the white-space characters at the head. *)
Lemma strip_space_ind (P : string -> Prop) :
  (forall s, strip_space s = None -> P s) ->
  (forall s r, strip_space s = Some r -> P r -> P s) ->
  forall s, P s.
Proof.
  intros Hnone Hsome s.
  remember (String.length s) as n eqn:Hn. revert s Hn.
  induction n as [n IH] using lt_wf_ind. intros s ->.
  destruct (strip_space s) as [r|] eqn:Hs; [|by apply Hnone].
  apply (Hsome s r Hs). apply (IH (String.length r)); [|reflexivity].
  by apply strip_space_length.
Qed.

Lemma trim_start_cons (c : ascii) (rest : string) :
  trim_start (String c rest)
  = if is_space c then trim_start rest
    else match rest with
         | String d rest1 =>
             if is_space2 c d then trim_start rest1
             else match rest1 with
                  | String e rest2 =>
                      if is_space3 c d e then trim_start rest2 else String c rest
                  | EmptyString => String c rest
                  end
         | EmptyString => String c rest
         end.
Proof. reflexivity. Qed.

Lemma blank_cons (c : ascii) (rest : string) :
  blank (String c rest)
  = if is_space c then blank rest
    else match rest with
         | String d rest1 =>
             if is_space2 c d then blank rest1
             else match rest1 with
                  | String e rest2 => is_space3 c d e && blank rest2
                  | EmptyString => false
                  end
         | EmptyString => false
         end.
Proof. reflexivity. Qed.

Lemma trim_start_unfold (s : string) :
  trim_start s = match strip_space s with Some r => trim_start r | None => s end.
Proof.
  destruct s as [|c rest]; [reflexivity|]. rewrite trim_start_cons.
  unfold strip_space. destruct (is_space c); [reflexivity|].
  destruct rest as [|d rest1]; [reflexivity|].
  destruct (is_space2 c d); [reflexivity|].
  destruct rest1 as [|e rest2]; [reflexivity|].
  by destruct (is_space3 c d e).
Qed.

Lemma blank_unfold (s : string) :
  blank s = match strip_space s with Some r => blank r | None => String.eqb s "" end.
Proof.
  destruct s as [|c rest]; [reflexivity|]. rewrite blank_cons.
  unfold strip_space. destruct (is_space c); [reflexivity|].
  destruct rest as [|d rest1]; [reflexivity|].
  destruct (is_space2 c d); [reflexivity|].
  destruct rest1 as [|e rest2]; [reflexivity|].
  by destruct (is_space3 c d e).
Qed.

Lemma trim_start_Some (s r : string) :
  strip_space s = Some r -> trim_start s = trim_start r.
Proof. intros H. by rewrite trim_start_unfold, H. Qed.

Lemma trim_start_None (s : string) : strip_space s = None -> trim_start s = s.
Proof. intros H. by rewrite trim_start_unfold, H. Qed.

Lemma blank_Some (s r : string) : strip_space s = Some r -> blank s = blank r.
Proof. intros H. by rewrite blank_unfold, H. Qed.

Lemma blank_None (s : string) : strip_space s = None -> blank s = String.eqb s "".
Proof. intros H. by rewrite blank_unfold, H. Qed.

Lemma trim_start_blank (s : string) : String.eqb (trim_start s) "" = blank s.
Proof.
  induction s as [s Hs|s r Hs IH] using strip_space_ind.
  - by rewrite (trim_start_None s Hs), (blank_None s Hs).
  - by rewrite (trim_start_Some s r Hs), (blank_Some s r Hs).
Qed.

Lemma strip_trim_start (s : string) : strip_space (trim_start s) = None.
Proof.
  induction s as [s Hs|s r Hs IH] using strip_space_ind.
  - by rewrite (trim_start_None s Hs).
  - by rewrite (trim_start_Some s r Hs).
Qed.

Lemma trim_end_empty (s : string) : trim_end s = "" <-> blank s = true.
Proof.
  destruct s as [|c rest]; [done|].
  change (trim_end (String c rest))
    with (if String.eqb (trim_start (String c rest)) "" then ""
          else String c (trim_end rest)).
  rewrite trim_start_blank. by destruct (blank (String c rest)).
Qed.

Lemma trim_empty (s : string) : trim s = "" <-> blank s = true.
Proof.
  unfold trim. rewrite trim_end_empty, <- trim_start_blank.
  rewrite (trim_start_None _ (strip_trim_start s)). by rewrite trim_start_blank.
Qed.

Lemma strip_space_app (a r b : string) :
  strip_space a = Some r -> strip_space (a +:+ b) = Some (r +:+ b).
Proof.
  destruct a as [|c [|d [|e rest]]]; [discriminate|..];
    rewrite ?append_cons; unfold strip_space;
    repeat (case_match; try discriminate); by intros [= <-].
Qed.

Lemma strip_space_boundary (s r : string) : strip_space s = Some r -> at_boundary s.
Proof.
  destruct s as [|c [|d [|e rest]]]; simpl; try discriminate;
    repeat (case_match; try discriminate); intros _;
    first [ by apply is_space_start
          | by eapply is_space2_bytes
          | by eapply is_space3_bytes ].
Qed.

Lemma blank_boundary (s : string) : blank s = true -> at_boundary s.
Proof.
  destruct (strip_space s) as [r|] eqn:Hs; [intros _; by eapply strip_space_boundary|].
  rewrite (blank_None s Hs). by destruct s.
Qed.

Lemma strip_space_app_None (a b : string) :
  strip_space a = None -> a <> "" -> at_boundary b -> strip_space (a +:+ b) = None.
Proof.
  intros Ha Hne Hb.
  destruct a as [|c [|d [|e rest]]]; [done| | |]; simpl in Ha.
  - destruct (is_space c) eqn:Hc; [discriminate|].
    destruct b as [|x [|y b]]; simpl; rewrite Hc; try done.
    + destruct (is_space2 c x) eqn:H2; [|done].
      apply is_space2_bytes in H2 as [_ H2]. simpl in Hb. congruence.
    + destruct (is_space2 c x) eqn:H2.
      * apply is_space2_bytes in H2 as [_ H2]. simpl in Hb. congruence.
      * destruct (is_space3 c x y) eqn:H3; [|done].
        apply is_space3_bytes in H3 as (_ & H3 & _). simpl in Hb. congruence.
  - destruct (is_space c) eqn:Hc; [discriminate|].
    destruct (is_space2 c d) eqn:Hcd; [discriminate|].
    destruct b as [|x b]; simpl; rewrite Hc, Hcd; [done|].
    destruct (is_space3 c d x) eqn:H3; [|done].
    apply is_space3_bytes in H3 as (_ & _ & H3). simpl in Hb. congruence.
  - rewrite !append_cons. unfold strip_space.
    by destruct (is_space c), (is_space2 c d), (is_space3 c d e).
Qed.

Lemma blank_app (a b : string) : blank b = true -> blank (a +:+ b) = blank a.
Proof.
  intros Hb. induction a as [a Ha|a r Ha IH] using strip_space_ind.
  - destruct a as [|c a]; [exact Hb|].
    rewrite (blank_None _ Ha).
    by rewrite (blank_None _ (strip_space_app_None _ b Ha ltac:(done)
                                (blank_boundary b Hb))).
  - by rewrite (blank_Some _ _ (strip_space_app a r b Ha)), (blank_Some a r Ha).
Qed.

Lemma trim_end_unfold (c : ascii) (rest : string) :
  trim_end (String c rest)
  = if blank (String c rest) then "" else String c (trim_end rest).
Proof.
  change (trim_end (String c rest))
    with (if String.eqb (trim_start (String c rest)) "" then ""
          else String c (trim_end rest)).
  by rewrite trim_start_blank.
Qed.

Lemma trim_end_split (s : string) :
  exists tail, s = trim_end s +:+ tail /\ blank tail = true.
Proof.
  induction s as [|c rest IH]; [by exists ""|].
  rewrite trim_end_unfold. destruct (blank (String c rest)) eqn:Hb.
  - by exists (String c rest).
  - destruct IH as (tail & Hrest & Htail). exists tail.
    split; [|exact Htail]. rewrite append_cons. by rewrite <- Hrest.
Qed.

Lemma trim_end_twice (s : string) : trim_end (trim_end s) = trim_end s.
Proof.
  induction s as [|c rest IH]; [reflexivity|].
  rewrite trim_end_unfold. destruct (blank (String c rest)) eqn:Hb; [reflexivity|].
  rewrite trim_end_unfold, IH.
  destruct (trim_end_split rest) as (tail & Hrest & Htail).
  pose proof (blank_app (String c (trim_end rest)) tail Htail) as Hkept.
  rewrite append_cons, <- Hrest, Hb in Hkept. by rewrite <- Hkept.
Qed.

Lemma strip_trim_end (s : string) :
  strip_space s = None -> strip_space (trim_end s) = None.
Proof.
  intros Hs. destruct (strip_space (trim_end s)) as [r|] eqn:Hr; [|reflexivity].
  destruct (trim_end_split s) as (tail & Hsplit & _).
  apply (strip_space_app _ _ tail) in Hr. rewrite <- Hsplit in Hr. congruence.
Qed.

Lemma trim_twice (s : string) : trim (trim s) = trim s.
Proof.
  unfold trim.
  rewrite (trim_start_None (trim_end (trim_start s))).
  - apply trim_end_twice.
  - apply strip_trim_end, strip_trim_start.
Qed.

End WhiteSpace.

Section Generation.

Context {J : JSONBuiltin}.

Lemma no_opener_no_block (s : string) :
  ~ has_char "{" s -> ~ has_char "[" s -> match_json_block s = None.
Proof.
  induction s as [|c s IH]; simpl; [done|].
  rewrite !has_char_cons. intros Hbrace Hbracket.
  destruct (Ascii.eqb_spec c "{") as [->|_]; [exfalso; apply Hbrace; by left|].
  destruct (Ascii.eqb_spec c "[") as [->|_]; [exfalso; apply Hbracket; by left|].
  apply IH; intros ?; [apply Hbrace|apply Hbracket]; by right.
Qed.

Lemma normalize_unparsed (raw : string) :
  parsed_of raw = None ->
  normalize (JStr raw) = Normal (NormalizationFailure (JStr raw)).
Proof. intros H. unfold normalize. rewrite extractJSON_string, H. reflexivity. Qed.

Lemma normalize_empty :
  normalize (JStr "") = Normal (NormalizationFailure (JStr "")).
Proof.
  apply normalize_unparsed. unfold parsed_of. by rewrite JSON_parse_empty.
Qed.

(** X3: a topic of white space only (or empty) sends no request and
    changes nothing of the session: the call ends in the alert that asks
    for a topic, whatever the reply would have been. *)
Theorem fetchLesson_blank_topic (w : World) (t : string) (outcome : FetchOutcome) :
  topic (app w) = JStr t -> blank t = true ->
  fetchLesson outcome w = Normal (alert "Please enter a topic first!" w)
  /\ topicInput_onKeyDown "Enter" w = Normal (alert "Please enter a topic first!" w).
Proof.
  intros Ht Hblank. apply trim_empty in Hblank.
  unfold topicInput_onKeyDown, fetchLesson, fetchLesson_begin. simpl.
  by rewrite Ht, Hblank.
Qed.

(** X4: a reply that is prose, with no brace and no bracket in it and
    not itself JSON, is shown as the lesson together with the fallback
    quiz and summary; nothing is stored and no alert is shown. *)
Theorem fetchLesson_settle_prose (t raw : string) (result : JSValue) (w : World) :
  rawTextOf result = JStr raw -> raw <> "" -> JSON_parse raw = None ->
  ~ has_char "{" raw -> ~ has_char "[" raw ->
  let w' := fetchLesson_settle t (FetchResolves result) w in
  lesson (app w') = JStr raw
  /\ quiz (app w') = lr_quiz (synthesize t (JStr raw))
  /\ summary (app w') = JStr (t +:+ " helps developers write clean and maintainable code.")
  /\ loading (app w') = false
  /\ storage w' = storage w /\ alerts w' = alerts w.
Proof.
  intros Hraw Hne Hparse Hbrace Hbracket w'. subst w'.
  rewrite (fetchLesson_settle_fallback t result (JStr raw)).
  - simpl. rewrite or_else_string. destruct (String.eqb_spec raw ""); [done|].
    by repeat split.
  - rewrite Hraw. apply normalize_unparsed. unfold parsed_of.
    by rewrite Hparse, no_opener_no_block.
Qed.

(** X5: a reply without [choices] (the body of an error status, [null],
    a number) gives the empty raw text: the lesson shown is the failure
    message for the topic, with the fallback quiz, and neither an alert
    nor a stored item comes of it. *)
Theorem fetchLesson_settle_no_choices (t : string) (result : JSValue) (w : World) :
  opt_member result "choices" = JUndefined ->
  let w' := fetchLesson_settle t (FetchResolves result) w in
  lesson (app w') = JStr (failedPrefix +:+ t +:+ failedSuffix)
  /\ quiz (app w') = lr_quiz (synthesize t (JStr ""))
  /\ loading (app w') = false
  /\ storage w' = storage w /\ alerts w' = alerts w.
Proof.
  intros Hchoices w'. subst w'.
  assert (Hraw : rawTextOf result = JStr "") by (unfold rawTextOf; by rewrite Hchoices).
  rewrite (fetchLesson_settle_fallback t result (JStr "")).
  - by repeat split.
  - rewrite Hraw. apply normalize_empty.
Qed.

(** The raw text of a reply is truthy or the empty string. *)
Lemma rawTextOf_cases (result : JSValue) :
  truthy (rawTextOf result) = true \/ rawTextOf result = JStr "".
Proof.
  unfold rawTextOf, or_else.
  destruct (truthy (opt_member (opt_member _ "message") "content")) eqn:H1.
  - rewrite H1. by left.
  - destruct (truthy (opt_member _ "text")) eqn:H2; [rewrite H2; by left|].
    by right.
Qed.

Lemma failed_message_truthy (t : string) (rawText : JSValue) :
  truthy (lr_lesson (synthesize t rawText)) = true.
Proof.
  simpl. unfold or_else. destruct (truthy rawText) eqn:H; [exact H|reflexivity].
Qed.

Lemma summary_truthy (t : string) :
  truthy (JStr (t +:+ " helps developers write clean and maintainable code.")) = true.
Proof.
  simpl. destruct t; reflexivity.
Qed.

Lemma accepted_record_truthy (rawText parsed : JSValue) (record : LessonRecord) :
  normalize rawText = Normal (Accepted parsed record) ->
  truthy (lr_lesson record) = true /\ truthy (lr_summary record) = true
  /\ isArray (lr_quiz record) = true.
Proof.
  unfold normalize. destruct (extractJSON rawText) as [p|]; [|discriminate].
  simpl. destruct (accepted p) eqn:Hacc; [|discriminate].
  intros [= <- <-]. simpl.
  unfold accepted in Hacc. repeat (apply andb_prop in Hacc as [Hacc ?]).
  repeat split; try done. by destruct (isArray (opt_member p "quiz")) eqn:Harr.
Qed.

(** X6: when a request settles, either the [catch] ran (the alert is
    shown and lesson, quiz and summary stay as they were), or what is
    shown is a truthy lesson, a truthy summary and a quiz that is an
    array: no reply makes the component show an empty lesson or a quiz
    that is not an array. *)
Theorem fetchLesson_settle_shows (t : string) (outcome : FetchOutcome) (w : World) :
  let w' := fetchLesson_settle t outcome w in
  loading (app w') = false
  /\ ((alerts w' = alerts w ++ [connectError]
       /\ lesson (app w') = lesson (app w) /\ quiz (app w') = quiz (app w)
       /\ summary (app w') = summary (app w) /\ storage w' = storage w)
      \/ (alerts w' = alerts w
          /\ truthy (lesson (app w')) = true /\ truthy (summary (app w')) = true
          /\ isArray (quiz (app w')) = true)).
Proof.
  unfold fetchLesson_settle. destruct outcome as [|result]; simpl.
  - split; [reflexivity|]. left. by repeat split.
  - destruct (normalize (rawTextOf result)) as [[parsed record|rawText]|] eqn:Hn; simpl.
    + split; [reflexivity|]. right.
      destruct (accepted_record_truthy _ _ _ Hn) as (? & ? & ?). by repeat split.
    + split; [reflexivity|]. right.
      split; [reflexivity|]. split; [apply failed_message_truthy|].
      split; [apply summary_truthy|reflexivity].
    + split; [reflexivity|]. left. by repeat split.
Qed.

End Generation.

Section Persistence.

Context {J : JSONBuiltin}.

Lemma obj_get_set (k k' : string) (v : JSValue) (props : list (string * JSValue)) :
  obj_get k (obj_set k' v props) = if String.eqb k k' then v else obj_get k props.
Proof.
  induction props as [|[k0 v0] props IH]; simpl.
  - by destruct (String.eqb k k').
  - destruct (String.eqb_spec k' k0) as [->|Hk0]; simpl.
    + by destruct (String.eqb k k0).
    + rewrite IH. destruct (String.eqb_spec k k0) as [->|_]; [|reflexivity].
      by destruct (String.eqb_spec k0 k').
Qed.

Lemma obj_get_absent (k : string) (props : list (string * JSValue)) :
  k ∉ props.*1 -> obj_get k props = JUndefined.
Proof.
  induction props as [|[k0 v0] props IH]; simpl; [done|].
  rewrite not_elem_of_cons. intros [Hne Hrest].
  destruct (String.eqb_spec k k0); [done|]. by apply IH.
Qed.

Lemma obj_get_spread_props (k : string) (props base : list (string * JSValue)) :
  NoDup props.*1 ->
  obj_get k (fold_left (fun acc '(k', x) => obj_set k' x acc) props base)
  = if decide (k ∈ props.*1) then obj_get k props else obj_get k base.
Proof.
  revert base. induction props as [|[k0 v0] props IH]; intros base Hdup.
  - reflexivity.
  - rewrite fmap_cons in Hdup. apply NoDup_cons in Hdup as [Hk0 Hdup].
    cbn [fold_left]. rewrite (IH _ Hdup), obj_get_set.
    rewrite fmap_cons. cbn [fst obj_get] in *.
    destruct (String.eqb_spec k k0) as [->|Hne].
    + rewrite (decide_False (P := k0 ∈ props.*1)) by done.
      by rewrite decide_True by (by left).
    + destruct (decide (k ∈ props.*1)) as [Hin|Hout].
      * by rewrite decide_True by (by right).
      * rewrite decide_False; [reflexivity|]. by rewrite not_elem_of_cons.
Qed.

(** X7: in the object [{ topic, ...parsed }] that an accepted reply
    stores, every key of the reply has the reply's value, the key [topic]
    included: the topic of the call is stored only when the reply has no
    [topic] of its own. *)
Theorem spread_lookup (t : string) (props : list (string * JSValue)) (k : string) :
  NoDup props.*1 ->
  opt_member (spread [("topic", JStr t)] (JObj props)) k
  = if decide (k ∈ props.*1) then obj_get k props
    else if String.eqb k "topic" then JStr t else JUndefined.
Proof.
  intros Hdup. simpl. rewrite (obj_get_spread_props k props _ Hdup).
  destruct (decide _); [reflexivity|]. simpl. by destruct (String.eqb k "topic").
Qed.

Lemma storage_loadProgress (w : World) : storage (loadProgress w) = storage w.
Proof.
  unfold loadProgress. destruct (storage w) as [saved|] eqn:Hs; [|by rewrite Hs].
  destruct (String.eqb saved ""); [by rewrite Hs|].
  destruct (JSON_parse saved) as [parsed|]; [|by rewrite Hs].
  by destruct (member parsed "topic").
Qed.

(** What the load effect does with an item that parses to an object. *)
Lemma loadProgress_object (w : World) (saved : string) (props : list (string * JSValue)) :
  storage w = Some saved -> JSON_parse saved = Some (JObj props) ->
  app (loadProgress w)
  = setLessonQuizSummary
      (or_else (obj_get "lesson" props) (JStr ""))
      (or_else (obj_get "quiz" props) (JArr []))
      (or_else (obj_get "summary" props) (JStr ""))
      (setTopic (or_else (obj_get "topic" props) (JStr "")) (app w)).
Proof.
  intros Hs Hp. unfold loadProgress. rewrite Hs.
  destruct (String.eqb_spec saved "") as [->|_].
  - by rewrite JSON_parse_empty in Hp.
  - by rewrite Hp.
Qed.

(** X8: the load effect run a second time changes nothing more. *)
Theorem loadProgress_twice (w : World) :
  loadProgress (loadProgress w) = loadProgress w.
Proof.
  unfold loadProgress at 1. rewrite storage_loadProgress.
  unfold loadProgress. destruct (storage w) as [saved|]; [|reflexivity].
  destruct (String.eqb saved ""); [reflexivity|].
  destruct (JSON_parse saved) as [parsed|]; [|reflexivity].
  by destruct (member parsed "topic").
Qed.

(** X9: a selection stores the session so that a fresh start shows its
    topic, lesson, quiz and summary again, provided the stored text
    parses back to the object it was printed from and each of the four
    is a value that [||] lets through; the selections themselves are not
    read back. *)
Theorem reload_after_selectOption (w : World) (i : nat) (opt : JSValue) :
  let snap := snapshot (app w)
                [("selected", selected_object (<[i := opt]> (selected (app w))))] in
  score (app w) = None ->
  JSON_parse (JSON_stringify snap) = Some snap ->
  restorable (topic (app w)) (JStr "") -> restorable (lesson (app w)) (JStr "") ->
  restorable (quiz (app w)) (JArr []) -> restorable (summary (app w)) (JStr "") ->
  app (loadProgress (initialWorld (storage (selectOption i opt w))))
  = {| topic := topic (app w); lesson := lesson (app w); quiz := quiz (app w);
       summary := summary (app w); selected := ∅; score := None; loading := false;
       messages := []; chatInput := ""; chatLoading := false |}.
Proof.
  intros snap Hscore Hround Ht Hl Hq Hs.
  unfold selectOption. rewrite Hscore. subst snap. unfold snapshot in *.
  cbn [storage setItem].
  rewrite (loadProgress_object (initialWorld (Some _)) _ _ eq_refl Hround). simpl.
  unfold restorable in *. by rewrite Ht, Hl, Hq, Hs.
Qed.

(** X10: an accepted reply is stored as it was parsed.  After a fresh
    start the lesson and the summary are the ones that were shown, and
    the quiz is the reply's [quiz] itself: when that is not an array the
    quiz shown at first was the empty array and the quiz after the
    reload is the value that is not an array. *)
Theorem reload_after_accepted (t : string) (result : JSValue) (w : World)
    (props : list (string * JSValue)) (record : LessonRecord) :
  normalize (rawTextOf result) = Normal (Accepted (JObj props) record) ->
  NoDup props.*1 ->
  JSON_parse (JSON_stringify (spread [("topic", JStr t)] (JObj props)))
  = Some (spread [("topic", JStr t)] (JObj props)) ->
  let w' := fetchLesson_settle t (FetchResolves result) w in
  let w'' := loadProgress (initialWorld (storage w')) in
  lesson (app w'') = lesson (app w')
  /\ summary (app w'') = summary (app w')
  /\ quiz (app w'') = obj_get "quiz" props
  /\ quiz (app w') = (if isArray (obj_get "quiz" props)
                      then obj_get "quiz" props else JArr []).
Proof.
  intros Hn Hdup Hround w' w''. subst w' w''.
  unfold fetchLesson_settle. rewrite Hn. simpl.
  unfold normalize in Hn. destruct (extractJSON _) as [p|]; [|discriminate].
  simpl in Hn. destruct (accepted p) eqn:Hacc; [|discriminate].
  injection Hn as -> <-. simpl.
  unfold accepted in Hacc. simpl in Hacc.
  repeat (apply andb_prop in Hacc as [Hacc ?]).
  assert (Hin : forall k, truthy (obj_get k props) = true -> k ∈ props.*1).
  { intros k Hk. destruct (decide (k ∈ props.*1)) as [|Hout]; [done|].
    by rewrite (obj_get_absent k props Hout) in Hk. }
  assert (Hget : forall k, truthy (obj_get k props) = true ->
            obj_get k (fold_left (fun acc '(k', x) => obj_set k' x acc) props
                         [("topic", JStr t)]) = obj_get k props).
  { intros k Hk. rewrite (obj_get_spread_props k props _ Hdup).
    by rewrite decide_True by (by apply Hin). }
  simpl in Hround.
  rewrite (loadProgress_object (initialWorld (Some _)) _ _ eq_refl Hround). simpl.
  rewrite !Hget by done. unfold or_else.
  repeat match goal with H : truthy _ = true |- _ => rewrite H; clear H end.
  by repeat split.
Qed.

(** X11: the button [Clear] does not cancel a generation: when the
    request settles with an accepted reply after the session was cleared,
    the lesson appears beside an empty topic, and the reply is stored
    again under the topic of the call. *)
Theorem resetAll_then_settle (t : string) (result parsed : JSValue) (w : World)
    (record : LessonRecord) :
  normalize (rawTextOf result) = Normal (Accepted parsed record) ->
  let w' := fetchLesson_settle t (FetchResolves result) (resetAll w) in
  storage (resetAll w) = None
  /\ topic (app w') = JStr ""
  /\ lesson (app w') = lr_lesson record /\ quiz (app w') = lr_quiz record
  /\ summary (app w') = lr_summary record
  /\ storage w' = Some (JSON_stringify (spread [("topic", JStr t)] parsed)).
Proof.
  intros Hn w'. subst w'. unfold fetchLesson_settle. rewrite Hn.
  by repeat split.
Qed.

End Persistence.

Section QuizSession.

Context {J : JSONBuiltin}.

(** X12: selections compose as writes to a map: two selections for
    different questions give the same session and the same stored item
    in either order, and of two selections for one question the later
    replaces the earlier; on a scored session both hold because nothing
    changes. *)
Theorem selectOption_compose (w : World) (i j : nat) (a b : JSValue) :
  (i <> j ->
   selectOption i a (selectOption j b w) = selectOption j b (selectOption i a w))
  /\ selectOption i b (selectOption i a w) = selectOption i b w.
Proof.
  unfold selectOption. destruct (score (app w)) as [s|] eqn:Hscore; simpl.
  - rewrite !Hscore. by split.
  - rewrite !Hscore. simpl. split.
    + intros Hij. unfold snapshot. simpl.
      by rewrite (insert_insert_ne (selected (app w)) i j a b Hij).
    + unfold snapshot. simpl. by rewrite insert_insert_eq.
Qed.

Lemma countCorrect_bounds (sel : gmap nat JSValue) (items : list JSValue) :
  forall i s n, countCorrect sel i items s = Normal n -> s <= n <= s + length items.
Proof.
  induction items as [|q items IH]; intros i s n H; simpl in *.
  - injection H as <-. lia.
  - destruct (member q "correct") as [c|]; [|discriminate]. simpl in H.
    apply IH in H. destruct (strict_eq _ _); lia.
Qed.

(** X13: a submission that goes through on a quiz that is not empty sets
    a score between 0 and the number of questions, and leaves the quiz
    and the selections as they were. *)
Theorem submitQuiz_score_bounded (w w' : World) (items : list JSValue) :
  quiz (app w) = JArr items -> items <> [] -> submitQuiz w = Normal w' ->
  exists s, score (app w') = Some s /\ s <= length items
            /\ quiz (app w') = quiz (app w) /\ selected (app w') = selected (app w).
Proof.
  intros Hquiz Hne. unfold submitQuiz. rewrite Hquiz.
  destruct items as [|q items]; [done|]. simpl length. simpl Nat.eqb. cbv iota.
  destruct (countCorrect _ 0 (q :: items) 0) as [s|] eqn:Hcount; [|discriminate].
  intros [= <-]. exists s. apply countCorrect_bounds in Hcount. simpl in *.
  rewrite Hquiz. repeat split; [lia|..]; reflexivity.
Qed.

Lemma countCorrect_null (sel : gmap nat JSValue) (items : list JSValue) :
  forall i s, JNull ∈ items -> countCorrect sel i items s = Throw.
Proof.
  induction items as [|q items IH]; intros i s Hin; [by apply elem_of_nil in Hin|].
  apply elem_of_cons in Hin as [<-|Hin]; simpl; [reflexivity|].
  destruct (member q "correct"); [|reflexivity]. simpl. by apply IH.
Qed.

(** X14: a quiz with a [null] item cannot be submitted: [submitQuiz]
    throws before it sets a score or writes the item, and the click on
    the button leaves the session as it was. *)
Theorem submitQuiz_null_item (w : World) (items : list JSValue) :
  quiz (app w) = JArr items -> JNull ∈ items ->
  submitQuiz w = Throw /\ step w SubmitClicked = w.
Proof.
  intros Hquiz Hin.
  assert (Hthrow : submitQuiz w = Throw).
  { unfold submitQuiz. rewrite Hquiz.
    destruct items as [|q items]; [by apply elem_of_nil in Hin|]. simpl Nat.eqb.
    cbv iota. by rewrite (countCorrect_null _ _ 0 0 Hin). }
  split; [exact Hthrow|]. unfold step, submitButton_onClick.
  rewrite Hquiz. destruct items; [reflexivity|].
  destruct (score (app w)); [reflexivity|]. by rewrite Hthrow.
Qed.

Lemma countCorrect_all (sel : gmap nat JSValue) (items : list JSValue) :
  forall i s,
    (forall k q, items !! k = Some q ->
       exists props c, q = JObj props /\ obj_get "correct" props = JStr c
                       /\ sel !! (i + k) = Some (JStr c)) ->
    countCorrect sel i items s = Normal (s + length items).
Proof.
  induction items as [|q items IH]; intros i s Hall; simpl.
  - f_equal. lia.
  - destruct (Hall 0 q eq_refl) as (props & c & -> & Hc & Hsel). simpl.
    rewrite Nat.add_0_r in Hsel. unfold selection. rewrite Hsel, Hc. simpl.
    rewrite String.eqb_refl, IH.
    + f_equal. lia.
    + intros k q' Hk. replace (S i + k) with (i + S k) by lia. by apply Hall.
Qed.

(** X15: when every question has its [correct] string selected, the
    submission sets the score to the number of questions. *)
Theorem submitQuiz_all_correct (w : World) (items : list JSValue) :
  quiz (app w) = JArr items -> items <> [] ->
  (forall k q, items !! k = Some q ->
     exists props c, q = JObj props /\ obj_get "correct" props = JStr c
                     /\ selected (app w) !! k = Some (JStr c)) ->
  exists w', submitQuiz w = Normal w' /\ score (app w') = Some (length items).
Proof.
  intros Hquiz Hne Hall. unfold submitQuiz. rewrite Hquiz.
  destruct items as [|q0 items0] eqn:Hitems; [done|]. rewrite <- Hitems in *.
  replace (length items =? 0) with false by (by rewrite Hitems).
  rewrite (countCorrect_all _ items 0 0 Hall). by eexists.
Qed.

(** X16: the button of option [k] of question [i], on an open session,
    selects exactly the option it shows and touches no other question. *)
Theorem optionButton_selects (w : World) (items opts : list JSValue) (q opt : JSValue)
    (i k : nat) :
  score (app w) = None -> quiz (app w) = JArr items -> items !! i = Some q ->
  opt_member q "a" = JArr opts -> opts !! k = Some opt ->
  selected (app (optionButton_onClick i k w)) !! i = Some opt
  /\ (forall j, j <> i ->
        selected (app (optionButton_onClick i k w)) !! j = selected (app w) !! j)
  /\ score (app (optionButton_onClick i k w)) = None.
Proof.
  intros Hscore Hquiz Hq Ha Hopt. unfold optionButton_onClick.
  rewrite Hquiz, Hq, Ha, Hopt.
  destruct (selectOption_open i opt w Hscore) as (-> & _ & ->).
  split; [apply lookup_insert_eq|]. split; [|reflexivity].
  intros j Hj. by apply lookup_insert_ne.
Qed.

End QuizSession.

Section Conversation.

Context {J : JSONBuiltin}.

Lemma sendChatMessage_begin_passes (r : AppState) (userText : string) (w : World) :
  userText <> "" -> chatLoading r = false ->
  app (sendChatMessage_begin r userText w)
  = setChatLoading true (setChatInput ""
      (setMessages (fun m => m ++ [mkTurn user (JStr userText)]) (app w)))
  /\ requests (sendChatMessage_begin r userText w)
     = requests w ++ [ChatRequest (mkTurn system (JStr chatSystemPrompt)
                                   :: windowForPrompt (messages r)
                                   ++ [mkTurn user (JStr userText)])]
  /\ storage (sendChatMessage_begin r userText w) = storage w
  /\ alerts (sendChatMessage_begin r userText w) = alerts w
  /\ spoken (sendChatMessage_begin r userText w) = spoken w.
Proof.
  intros Hne Hidle. unfold sendChatMessage_begin. rewrite Hidle.
  by destruct (String.eqb_spec userText "").
Qed.

(** X17: what the chat input and the button [Send] hand to
    [sendChatMessage] is the typed text without the white space around
    it, and only when something is left of it: either nothing happens,
    or the user turn appended is that trimmed text, which is not empty
    and has no white space left to trim, the input is emptied and the
    chat is marked as loading. *)
Theorem typed_message_trimmed (w : World) :
  forall w', (w' = sendButton_onClick w \/ w' = chatInput_onKeyDown "Enter" w) ->
    w' = w
    \/ (exists u, u = trim (chatInput (app w)) /\ u <> "" /\ trim u = u
                  /\ messages (app w') = messages (app w) ++ [mkTurn user (JStr u)]
                  /\ chatInput (app w') = "" /\ chatLoading (app w') = true).
Proof.
  assert (Hsend : forall w', chatLoading (app w) = false ->
                    trim (chatInput (app w)) <> "" ->
                    w' = sendChatMessage_begin (app w) (trim (chatInput (app w))) w ->
                    exists u, u = trim (chatInput (app w)) /\ u <> "" /\ trim u = u
                      /\ messages (app w') = messages (app w) ++ [mkTurn user (JStr u)]
                      /\ chatInput (app w') = "" /\ chatLoading (app w') = true).
  { intros w' Hidle Hne ->. eexists. split; [reflexivity|]. split; [exact Hne|].
    split; [apply trim_twice|].
    destruct (sendChatMessage_begin_passes (app w) _ w Hne Hidle) as (-> & _).
    by repeat split. }
  intros w' [->| ->].
  - unfold sendButton_onClick. destruct (chatLoading (app w)) eqn:Hidle; [by left|].
    destruct (String.eqb_spec (trim (chatInput (app w))) "") as [|Hne]; [by left|].
    right. by apply Hsend.
  - unfold chatInput_onKeyDown. simpl.
    destruct (String.eqb_spec (trim (chatInput (app w))) "") as [|Hne]; [by left|].
    simpl. destruct (chatLoading (app w)) eqn:Hidle.
    + left. by apply sendChatMessage_begin_busy.
    + right. by apply Hsend.
Qed.

(** X19: the recognition callback sees neither the session's
    [chatLoading] nor its history: for every transcript that is not
    empty it appends the user turn and sends a request whose prompt is
    the system turn and that one user turn, also while a chat request is
    outstanding and whatever the history holds. *)
Theorem recognition_ignores_session (transcript : string) (w : World) :
  transcript <> "" ->
  messages (app (recognition_onresult transcript w))
  = messages (app w) ++ [mkTurn user (JStr transcript)]
  /\ requests (recognition_onresult transcript w)
     = requests w ++ [ChatRequest [mkTurn system (JStr chatSystemPrompt);
                                   mkTurn user (JStr transcript)]]
  /\ chatLoading (app (recognition_onresult transcript w)) = true.
Proof.
  intros Hne. unfold recognition_onresult.
  destruct (sendChatMessage_begin_passes initialApp transcript
              (with_app (setChatInput transcript) w) Hne eq_refl)
    as (-> & -> & _).
  by repeat split.
Qed.

Lemma find_last_assistant (history : list ChatTurn) (m : ChatTurn) :
  is_assistant m = true ->
  List.find is_assistant (reverse (history ++ [m])) = Some m.
Proof. intros H. rewrite reverse_snoc. simpl. by rewrite H. Qed.

(** X20: after a chat request has settled, the button [Listen] speaks
    the content of the turn that was appended, be it the reply, the
    empty text of a reply without content, or the error message; it
    neither speaks the lesson nor shows an alert. *)
Theorem listen_after_reply (speak : bool) (outcome : FetchOutcome) (w : World) :
  let w1 := sendChatMessage_settle speak outcome w in
  spoken (listenButton_onClick w1) = spoken w1 ++ [content (reply outcome)]
  /\ alerts (listenButton_onClick w1) = alerts w1
  /\ app (listenButton_onClick w1) = app w1.
Proof.
  intros w1. unfold listenButton_onClick.
  subst w1. rewrite sendChatMessage_settle_messages.
  rewrite find_last_assistant; [by repeat split|].
  unfold is_assistant. by rewrite reply_assistant.
Qed.

(** X21: clearing does not cancel a chat request: when the chat is
    cleared, or the whole session reset, between the call and the reply,
    the reply is appended to the emptied history, which then holds an
    assistant turn with no user turn before it. *)
Theorem clear_then_reply (r : AppState) (w : World) (userText : string)
    (speak : bool) (outcome : FetchOutcome) :
  userText <> "" -> chatLoading r = false ->
  let w1 := sendChatMessage_begin r userText w in
  requests w1 = requests w ++ [ChatRequest (mkTurn system (JStr chatSystemPrompt)
                                            :: windowForPrompt (messages r)
                                            ++ [mkTurn user (JStr userText)])]
  /\ messages (app (sendChatMessage_settle speak outcome (clearChat w1)))
     = [reply outcome]
  /\ messages (app (sendChatMessage_settle speak outcome (resetAll w1)))
     = [reply outcome].
Proof.
  intros Hne Hidle w1. rewrite !sendChatMessage_settle_messages.
  split; [|by split]. subst w1.
  by destruct (sendChatMessage_begin_passes r userText w Hne Hidle) as (_ & -> & _).
Qed.

(** *** What holds after every sequence of events *)

Lemma session_ok_frame (w w' : World) :
  messages (app w') = messages (app w) -> requests w' = requests w ->
  session_ok w -> session_ok w'.
Proof. unfold session_ok. by intros -> ->. Qed.

Lemma session_ok_cleared (w w' : World) :
  messages (app w') = [] -> requests w' = requests w ->
  session_ok w -> session_ok w'.
Proof. unfold session_ok. intros -> -> [_ ?]. by split. Qed.

Lemma requests_loadProgress (w : World) : requests (loadProgress w) = requests w.
Proof.
  unfold loadProgress. destruct (storage w) as [saved|]; [|done].
  destruct (String.eqb saved ""); [done|].
  destruct (JSON_parse saved) as [parsed|]; [|done].
  by destruct (member parsed "topic").
Qed.

Lemma fetchLesson_settle_frame (t : string) (outcome : FetchOutcome) (w : World) :
  messages (app (fetchLesson_settle t outcome w)) = messages (app w)
  /\ requests (fetchLesson_settle t outcome w) = requests w.
Proof.
  unfold fetchLesson_settle. destruct outcome as [|result]; [done|].
  by destruct (normalize (rawTextOf result)) as [[parsed record|rawText]|].
Qed.

Lemma fetchLesson_begin_ok (w w' : World) :
  fetchLesson_begin w = Normal w' -> session_ok w -> session_ok w'.
Proof.
  unfold fetchLesson_begin. destruct (topic (app w)) as [| | | |t| |]; try discriminate.
  destruct (String.eqb (trim t) ""); intros [= <-].
  - by apply session_ok_frame.
  - intros [_ Hreq]. split; [constructor|]. simpl.
    apply Forall_app. split; [exact Hreq|]. constructor; [|constructor]. by exists t.
Qed.

Lemma selectOption_frame (i : nat) (opt : JSValue) (w : World) :
  messages (app (selectOption i opt w)) = messages (app w)
  /\ requests (selectOption i opt w) = requests w.
Proof. unfold selectOption. by destruct (score (app w)). Qed.

Lemma submitQuiz_frame (w w' : World) :
  submitQuiz w = Normal w' ->
  messages (app w') = messages (app w) /\ requests w' = requests w.
Proof.
  unfold submitQuiz. destruct (quiz (app w)) as [| | | |str|items|props]; try discriminate.
  - destruct (String.eqb str ""); [|discriminate]. by intros [= <-].
  - destruct (length items =? 0); [by intros [= <-]|].
    destruct (countCorrect _ _ _ _); [|discriminate]. by intros [= <-].
  - destruct (strict_eq _ _); [|discriminate]. by intros [= <-].
Qed.

Lemma window_ok (history : list ChatTurn) :
  Forall turn_ok history ->
  length (windowForPrompt history) <= 10 /\ Forall turn_ok (windowForPrompt history).
Proof.
  intros H. rewrite windowForPrompt_drop, length_drop. split; [lia|].
  by apply Forall_drop.
Qed.

Lemma sendChatMessage_begin_ok (r : AppState) (userText : string) (w : World) :
  Forall turn_ok (messages r) -> session_ok w ->
  session_ok (sendChatMessage_begin r userText w).
Proof.
  intros Hr [Hm Hreq]. unfold sendChatMessage_begin.
  destruct (String.eqb_spec userText "") as [|Hne]; simpl; [done|].
  destruct (chatLoading r); [done|]. split; simpl.
  - apply Forall_app. split; [exact Hm|]. constructor; [|constructor].
    by exists userText.
  - apply Forall_app. split; [exact Hreq|]. constructor; [|constructor].
    destruct (window_ok _ Hr) as [Hlen Hwin].
    by exists (windowForPrompt (messages r)), userText.
Qed.

Lemma reply_ok (outcome : FetchOutcome) : turn_ok (reply outcome).
Proof.
  destruct outcome as [|result]; unfold turn_ok; simpl; [by left|].
  apply rawTextOf_cases.
Qed.

Lemma sendChatMessage_settle_ok (speak : bool) (outcome : FetchOutcome) (w : World) :
  session_ok w -> session_ok (sendChatMessage_settle speak outcome w).
Proof.
  intros [Hm Hreq]. split.
  - rewrite sendChatMessage_settle_messages. apply Forall_app.
    split; [exact Hm|]. constructor; [apply reply_ok|constructor].
  - unfold sendChatMessage_settle. destruct outcome as [|result]; simpl; [done|].
    by destruct (speak && truthy (rawTextOf result)).
Qed.

Lemma step_ok (w : World) (e : Event) : session_ok w -> session_ok (step w e).
Proof.
  intros Hok. destruct e; simpl.
  - apply (session_ok_frame w); [apply loadProgress_keeps|apply requests_loadProgress|done].
  - by apply (session_ok_frame w).
  - unfold topicInput_onKeyDown. destruct (String.eqb key "Enter"); [|done].
    destruct (fetchLesson_begin w) as [w'|] eqn:Hb; [|done].
    by apply (fetchLesson_begin_ok w).
  - unfold generateButton_onClick. destruct (loading (app w)); [done|].
    destruct (fetchLesson_begin w) as [w'|] eqn:Hb; [|done].
    by apply (fetchLesson_begin_ok w).
  - destruct (fetchLesson_settle_frame t outcome w). by apply (session_ok_frame w).
  - by apply (session_ok_frame w).
  - unfold chatInput_onKeyDown. destruct (_ && _); [|done].
    apply sendChatMessage_begin_ok; [apply Hok|done].
  - unfold sendButton_onClick. destruct (chatLoading (app w)); [done|].
    destruct (String.eqb _ ""); [done|].
    apply sendChatMessage_begin_ok; [apply Hok|done].
  - unfold recognition_onresult. apply sendChatMessage_begin_ok; [constructor|].
    by apply (session_ok_frame w).
  - by apply sendChatMessage_settle_ok.
  - unfold optionButton_onClick.
    destruct (quiz (app w)) as [| | | | |items|]; try done.
    destruct (items !! i) as [q|]; [|done].
    destruct (opt_member q "a") as [| | | | |opts|]; try done.
    destruct (opts !! k) as [opt|]; [|done].
    destruct (selectOption_frame i opt w). by apply (session_ok_frame w).
  - unfold submitButton_onClick.
    destruct (quiz (app w)) as [| | | | |[|q items]|]; try done.
    destruct (score (app w)); [done|].
    destruct (submitQuiz w) as [w'|] eqn:Hs; [|done].
    destruct (submitQuiz_frame w w' Hs). by apply (session_ok_frame w).
  - by apply (session_ok_cleared w).
  - by apply (session_ok_cleared w).
  - unfold listenButton_onClick. destruct (List.find _ _); [by apply (session_ok_frame w)|].
    destruct (truthy _); by apply (session_ok_frame w).
Qed.

(** X22: whatever the user does and however the requests settle, from a
    fresh start with any stored item: the history holds user turns with
    a text that is not empty and assistant turns with a truthy content
    or the empty text, and never a system turn; every lesson request is
    the system prompt and one user prompt; and every chat request is the
    system prompt, at most ten turns of history and the new user turn. *)
Theorem run_session_ok (saved : option string) (events : list Event) :
  session_ok (run events (initialWorld saved)).
Proof.
  assert (Hrun : forall w, session_ok w -> session_ok (run events w)).
  { unfold run. induction events as [|e events IH]; intros w Hok; [done|].
    simpl. by apply IH, step_ok. }
  apply Hrun. by split.
Qed.

Lemma chat_requests_send_lesson (t : string) (w : World) :
  chat_requests (send (lessonRequest t) w) = chat_requests w.
Proof.
  unfold chat_requests. simpl. rewrite List.filter_app. simpl. apply app_nil_r.
Qed.

Lemma chatLoading_loadProgress (w : World) :
  chatLoading (app (loadProgress w)) = chatLoading (app w).
Proof.
  unfold loadProgress. destruct (storage w) as [saved|]; [|done].
  destruct (String.eqb saved ""); [done|].
  destruct (JSON_parse saved) as [parsed|]; [|done].
  by destruct (member parsed "topic").
Qed.

Lemma fetchLesson_begin_chat (w w' : World) :
  fetchLesson_begin w = Normal w' ->
  chatLoading (app w') = chatLoading (app w) /\ chat_requests w' = chat_requests w.
Proof.
  unfold fetchLesson_begin. destruct (topic (app w)) as [| | | |t| |]; try discriminate.
  destruct (String.eqb (trim t) ""); intros [= <-]; [done|].
  split; [reflexivity|]. by rewrite chat_requests_send_lesson.
Qed.

Lemma fetchLesson_settle_chat (t : string) (outcome : FetchOutcome) (w : World) :
  chatLoading (app (fetchLesson_settle t outcome w)) = chatLoading (app w).
Proof.
  unfold fetchLesson_settle. destruct outcome as [|result]; [done|].
  by destruct (normalize (rawTextOf result)) as [[parsed record|rawText]|].
Qed.

Lemma submitQuiz_chat (w w' : World) :
  submitQuiz w = Normal w' -> chatLoading (app w') = chatLoading (app w).
Proof.
  unfold submitQuiz. destruct (quiz (app w)) as [| | | |str|items|props]; try discriminate.
  - destruct (String.eqb str ""); [|discriminate]. by intros [= <-].
  - destruct (length items =? 0); [by intros [= <-]|].
    destruct (countCorrect _ _ _ _); [|discriminate]. by intros [= <-].
  - destruct (strict_eq _ _); [|discriminate]. by intros [= <-].
Qed.

Ltac frame_with H :=
  match goal with
  | |- chatLoading (app ?x) = true /\ _ => apply (H x)
  end.

Lemma step_quiet (w : World) (e : Event) :
  chatLoading (app w) = true -> quiet e = true ->
  chatLoading (app (step w e)) = true /\ chat_requests (step w e) = chat_requests w.
Proof.
  intros Hbusy Hquiet.
  assert (Hframe : forall w', chatLoading (app w') = chatLoading (app w) ->
                     requests w' = requests w ->
                     chatLoading (app w') = true /\ chat_requests w' = chat_requests w).
  { intros w' Hc Hr. unfold chat_requests. by rewrite Hc, Hr. }
  destruct e; try discriminate; simpl.
  - frame_with Hframe; [apply chatLoading_loadProgress|apply requests_loadProgress].
  - by frame_with Hframe.
  - unfold topicInput_onKeyDown. destruct (String.eqb key "Enter"); [|done].
    destruct (fetchLesson_begin w) as [w'|] eqn:Hb; [|done]. simpl.
    destruct (fetchLesson_begin_chat w w' Hb) as [-> ->]. done.
  - unfold generateButton_onClick. destruct (loading (app w)); [done|].
    destruct (fetchLesson_begin w) as [w'|] eqn:Hb; [|done]. simpl.
    destruct (fetchLesson_begin_chat w w' Hb) as [-> ->]. done.
  - frame_with Hframe; [apply fetchLesson_settle_chat|apply fetchLesson_settle_frame].
  - by frame_with Hframe.
  - by rewrite (proj1 (chat_controls_busy key w Hbusy)).
  - by rewrite (proj2 (chat_controls_busy "" w Hbusy)).
  - unfold optionButton_onClick.
    destruct (quiz (app w)) as [| | | | |items|]; try done.
    destruct (items !! i) as [q|]; [|done].
    destruct (opt_member q "a") as [| | | | |opts|]; try done.
    destruct (opts !! k) as [opt|]; [|done].
    frame_with Hframe; [|apply selectOption_frame].
    unfold selectOption. by destruct (score (app w)).
  - unfold submitButton_onClick.
    destruct (quiz (app w)) as [| | | | |[|q items]|]; try done.
    destruct (score (app w)); [done|].
    destruct (submitQuiz w) as [w'|] eqn:Hs; [|done]. simpl.
    frame_with Hframe; [by apply submitQuiz_chat|by apply (submitQuiz_frame w)].
  - by frame_with Hframe.
  - by frame_with Hframe.
  - unfold listenButton_onClick. destruct (List.find _ _); [by frame_with Hframe|].
    destruct (truthy _); by frame_with Hframe.
Qed.

(** X18: once a typed message has been sent, the session stays marked
    as loading the chat and no further chat request is sent, whatever
    the user types, clicks or clears and whatever lesson request is sent
    or settles, as long as no reply to a chat request arrives and the
    recognition delivers no transcript. *)
Theorem typed_send_waits (w : World) (userText : string) (events : list Event) :
  userText <> "" -> chatLoading (app w) = false ->
  Forall (fun e => quiet e = true) events ->
  let w1 := sendChatMessage_begin (app w) userText w in
  chatLoading (app (run events w1)) = true
  /\ chat_requests (run events w1)
     = chat_requests w
       ++ [ChatRequest (mkTurn system (JStr chatSystemPrompt)
                        :: windowForPrompt (messages (app w))
                        ++ [mkTurn user (JStr userText)])].
Proof.
  intros Hne Hidle Hquiet w1.
  destruct (sendChatMessage_begin_passes (app w) userText w Hne Hidle)
    as (Happ & Hreq & _).
  assert (Hbusy : chatLoading (app w1) = true) by (subst w1; by rewrite Happ).
  assert (Hsent : chat_requests w1 = chat_requests w
            ++ [ChatRequest (mkTurn system (JStr chatSystemPrompt)
                             :: windowForPrompt (messages (app w))
                             ++ [mkTurn user (JStr userText)])]).
  { subst w1. unfold chat_requests. rewrite Hreq. by rewrite List.filter_app. }
  rewrite <- Hsent. clear Hsent Happ Hreq. revert Hbusy. generalize w1.
  unfold run. induction Hquiet as [|e events He _ IH]; intros w0 Hbusy; [done|].
  simpl. destruct (step_quiet w0 e Hbusy He) as [Hbusy' <-]. by apply IH.
Qed.

End Conversation.

Section Wrapped.

Context {J : JSONBuiltin}.

Lemma upto_last_closed (closer : ascii) (mid post : string) :
  ~ has_char closer post ->
  upto_last closer (mid +:+ String closer post) = Some (mid +:+ String closer "").
Proof.
  intros Hpost. induction mid as [|c mid IH].
  - change ("" +:+ String closer post) with (String closer post). simpl.
    rewrite (proj2 (upto_last_None closer post) Hpost). by rewrite Ascii.eqb_refl.
  - rewrite !append_cons. simpl. by rewrite IH.
Qed.

Lemma match_json_block_wrapped (pre mid post : string) :
  ~ has_char "{" pre -> ~ has_char "[" pre -> ~ has_char "}" post ->
  match_json_block (pre +:+ String "{" (mid +:+ String "}" post))
  = Some (String "{" (mid +:+ "}")).
Proof.
  intros Hbrace Hbracket Hpost. induction pre as [|c pre IH].
  - change ("" +:+ ?x) with x. simpl. by rewrite (upto_last_closed "}" mid post Hpost).
  - rewrite append_cons. simpl. rewrite has_char_cons in Hbrace, Hbracket.
    destruct (Ascii.eqb_spec c "{") as [->|_]; [exfalso; apply Hbrace; by left|].
    destruct (Ascii.eqb_spec c "[") as [->|_]; [exfalso; apply Hbracket; by left|].
    rewrite IH; [reflexivity| |]; intros ?; [apply Hbrace|apply Hbracket]; by right.
Qed.

(** X23: an object wrapped in prose is found: when the text does not
    parse as a whole, no brace or bracket opens before the object and no
    closing brace follows it, [extractJSON] returns what the object
    parses to. *)
Theorem extractJSON_wrapped (pre mid post : string) (p : JSValue) :
  let raw := pre +:+ String "{" (mid +:+ String "}" post) in
  JSON_parse raw = None ->
  ~ has_char "{" pre -> ~ has_char "[" pre -> ~ has_char "}" post ->
  JSON_parse (String "{" (mid +:+ "}")) = Some p ->
  extractJSON (JStr raw) = Normal p.
Proof.
  intros raw Hraw Hbrace Hbracket Hpost Hblock.
  rewrite extractJSON_string. unfold parsed_of. rewrite Hraw. subst raw.
  by rewrite (match_json_block_wrapped pre mid post Hbrace Hbracket Hpost), Hblock.
Qed.

(** X24: after a generation from a topic that is not blank, the button
    [Listen] speaks the lesson that is shown; when the request threw,
    there is no lesson and it shows its alert instead. *)
Theorem listen_after_generation (t : string) (outcome : FetchOutcome) (w w1 : World) :
  topic (app w) = JStr t -> trim t <> "" -> fetchLesson outcome w = Normal w1 ->
  (alerts w1 = alerts w ++ [connectError]
   /\ alerts (listenButton_onClick w1)
      = alerts w1 ++ ["No assistant response or lesson to speak."]
   /\ spoken (listenButton_onClick w1) = spoken w1)
  \/ (alerts w1 = alerts w
      /\ spoken (listenButton_onClick w1) = spoken w1 ++ [lesson (app w1)]
      /\ alerts (listenButton_onClick w1) = alerts w1).
Proof.
  intros Ht Hne Hrun. rewrite (fetchLesson_runs outcome w t Ht Hne) in Hrun.
  injection Hrun as <-.
  unfold listenButton_onClick, fetchLesson_settle.
  destruct outcome as [|result]; simpl; [by left|].
  destruct (normalize (rawTextOf result)) as [[parsed record|rawText]|] eqn:Hn.
  - simpl. destruct (accepted_record_truthy _ _ _ Hn) as (-> & _). by right.
  - pose proof (failed_message_truthy t rawText) as Hlesson.
    simpl in Hlesson |- *. rewrite Hlesson. by right.
  - by left.
Qed.

End Wrapped.

(** ** The further properties, run *)

Ltac no_such_char :=
  let H := fresh in
  intros H;
  repeat (apply has_char_cons in H as [H|H]; [discriminate H|]);
  exact (has_char_nil _ H).

Lemma match_json_block_Some_run :
  exists pre mid post,
    "Sure! {a} and } more [x]" = pre +:+ "{a} and }" +:+ post
    /\ (("{a} and }" = String "{" (mid +:+ "}") /\ ~ has_char "}" post)
        \/ ("{a} and }" = String "[" (mid +:+ "]") /\ ~ has_char "]" post))
    /\ (forall a b, pre = a +:+ String "{" b
                    -> ~ has_char "}" (b +:+ "{a} and }" +:+ post))
    /\ (forall a b, pre = a +:+ String "[" b
                    -> ~ has_char "]" (b +:+ "{a} and }" +:+ post)).
Proof. apply match_json_block_Some. vm_compute. reflexivity. Defined.

Lemma fetchLesson_blank_topic_run :
  fetchLesson FetchThrows (typed (" " +:+ nbsp +:+ emsp))
  = Normal (alert "Please enter a topic first!" (typed (" " +:+ nbsp +:+ emsp)))
  /\ topicInput_onKeyDown "Enter" (typed (" " +:+ nbsp +:+ emsp))
     = Normal (alert "Please enter a topic first!" (typed (" " +:+ nbsp +:+ emsp))).
Proof.
  apply (fetchLesson_blank_topic (typed (" " +:+ nbsp +:+ emsp)) (" " +:+ nbsp +:+ emsp));
    reflexivity.
Defined.

Lemma fetchLesson_settle_prose_run :
  lesson (app (fetchLesson_settle "Recursion"
                 (FetchResolves (completion "Sorry, I can't help with that."))
                 (typed "Recursion")))
  = JStr "Sorry, I can't help with that.".
Proof.
  apply (fetchLesson_settle_prose "Recursion" "Sorry, I can't help with that."
           (completion "Sorry, I can't help with that.") (typed "Recursion")).
  - reflexivity.
  - discriminate.
  - vm_compute. reflexivity.
  - no_such_char.
  - no_such_char.
Defined.

Lemma fetchLesson_settle_no_choices_run :
  lesson (app (fetchLesson_settle "X" (FetchResolves errorBody) (typed "X")))
  = JStr (failedPrefix +:+ "X" +:+ failedSuffix).
Proof. apply (fetchLesson_settle_no_choices "X" errorBody (typed "X")). reflexivity. Defined.

Lemma spread_lookup_run :
  opt_member (spread [("topic", JStr "X")]
                (JObj [("lesson", JStr "L"); ("topic", JStr "Y")])) "topic"
  = JStr "Y".
Proof.
  apply (spread_lookup "X" [("lesson", JStr "L"); ("topic", JStr "Y")] "topic").
  apply (bool_decide_unpack _). vm_compute. reflexivity.
Defined.

Lemma reload_after_selectOption_run :
  app (loadProgress (initialWorld (storage (selectOption 0 (JStr "y") scenarioA_shown))))
  = {| topic := JStr "X"; lesson := JStr "X is a thing";
       quiz := JArr [scenarioA_item]; summary := JStr "S";
       selected := ∅; score := None; loading := false;
       messages := []; chatInput := ""; chatLoading := false |}.
Proof.
  apply (reload_after_selectOption scenarioA_shown 0 (JStr "y"));
    vm_compute; reflexivity.
Defined.

Lemma reload_after_accepted_run :
  let reply := completion (Json.text "{'lesson':'L','quiz':'soon','summary':'S'}") in
  let w' := fetchLesson_settle "X" (FetchResolves reply) (typed "X") in
  quiz (app (loadProgress (initialWorld (storage w')))) = JStr "soon"
  /\ quiz (app w') = JArr [].
Proof.
  intros reply w'.
  destruct (reload_after_accepted "X" reply (typed "X")
              [("lesson", JStr "L"); ("quiz", JStr "soon"); ("summary", JStr "S")]
              (mkLesson (JStr "L") (JArr []) (JStr "S")))
    as (_ & _ & Hreload & Hshown).
  - vm_compute. reflexivity.
  - apply (bool_decide_unpack _). vm_compute. reflexivity.
  - vm_compute. reflexivity.
  - split; [exact Hreload|exact Hshown].
Defined.

Lemma resetAll_then_settle_run :
  let w' := fetchLesson_settle "X" (FetchResolves (completion scenarioA_text))
              (resetAll scenarioA_shown) in
  topic (app w') = JStr "" /\ lesson (app w') = JStr "X is a thing".
Proof.
  intros w'.
  destruct (resetAll_then_settle "X" (completion scenarioA_text) scenarioA_parsed
              scenarioA_shown
              (record_of (JStr "X is a thing") (JArr [scenarioA_item]) (JStr "S")))
    as (_ & Ht & Hl & _).
  - vm_compute. reflexivity.
  - split; [exact Ht|exact Hl].
Defined.

Lemma submitQuiz_score_bounded_run :
  exists w' s, submitQuiz scenarioA_shown = Normal w'
               /\ score (app w') = Some s /\ s <= 1.
Proof.
  destruct (submitQuiz scenarioA_shown) as [w'|] eqn:Hrun;
    [|vm_compute in Hrun; discriminate].
  destruct (submitQuiz_score_bounded scenarioA_shown w' [scenarioA_item])
    as (s & Hs & Hle & _).
  - vm_compute. reflexivity.
  - discriminate.
  - exact Hrun.
  - exists w', s. split; [reflexivity|]. split; [exact Hs|exact Hle].
Defined.

Lemma submitQuiz_null_item_run :
  let w := with_app (setLessonQuizSummary (JStr "L") (JArr [scenarioA_item; JNull])
                       (JStr "S")) (typed "X") in
  submitQuiz w = Throw /\ step w SubmitClicked = w.
Proof.
  intros w. apply (submitQuiz_null_item w [scenarioA_item; JNull]).
  - reflexivity.
  - right. left.
Defined.

Lemma submitQuiz_all_correct_run :
  exists w', submitQuiz (selectOption 0 (JStr "y") scenarioA_shown) = Normal w'
             /\ score (app w') = Some 1.
Proof.
  apply (submitQuiz_all_correct (selectOption 0 (JStr "y") scenarioA_shown)
           [scenarioA_item]).
  - vm_compute. reflexivity.
  - discriminate.
  - intros [|k] q Hq; [|discriminate]. injection Hq as <-.
    eexists _, _. split; [reflexivity|]. split; vm_compute; reflexivity.
Defined.

Lemma optionButton_selects_run :
  selected (app (optionButton_onClick 0 1 scenarioA_shown)) !! 0 = Some (JStr "y").
Proof.
  apply (optionButton_selects scenarioA_shown [scenarioA_item]
           [JStr "x"; JStr "y"; JStr "z"] scenarioA_item (JStr "y") 0 1);
    vm_compute; reflexivity.
Defined.

Lemma typed_message_trimmed_run :
  let w := chatInput_onChange (nbsp +:+ " Why? " +:+ emsp) (typed "X") in
  trim (chatInput (app w)) = "Why?"
  /\ (sendButton_onClick w = w
      \/ (exists u, u = trim (chatInput (app w)) /\ u <> "" /\ trim u = u
                    /\ messages (app (sendButton_onClick w))
                       = messages (app w) ++ [mkTurn user (JStr u)]
                    /\ chatInput (app (sendButton_onClick w)) = ""
                    /\ chatLoading (app (sendButton_onClick w)) = true)).
Proof.
  intros w. split; [vm_compute; reflexivity|].
  apply (typed_message_trimmed w). left. reflexivity.
Defined.

Lemma typed_send_waits_run :
  let w1 := sendChatMessage_begin (app (typed "X")) "Why?" (typed "X") in
  let events := [ChatTyped "again"; ChatKey "Enter"; SendClicked; ClearChatClicked;
                 ChatTyped "and again"; SendClicked] in
  chatLoading (app (run events w1)) = true
  /\ length (chat_requests (run events w1)) = 1.
Proof.
  intros w1 events.
  destruct (typed_send_waits (typed "X") "Why?" events) as [Hbusy Hsent].
  - discriminate.
  - reflexivity.
  - repeat constructor.
  - split; [exact Hbusy|]. subst w1. by rewrite Hsent.
Defined.

Lemma recognition_ignores_session_run :
  let w := sendChatMessage_begin (app (typed "X")) "Why?" (typed "X") in
  chatLoading (app w) = true
  /\ requests (recognition_onresult "And how?" w)
     = requests w ++ [ChatRequest [mkTurn system (JStr chatSystemPrompt);
                                   mkTurn user (JStr "And how?")]].
Proof.
  intros w. split; [reflexivity|].
  apply (recognition_ignores_session "And how?" w). discriminate.
Defined.

Lemma clear_then_reply_run :
  messages (app (sendChatMessage_settle true FetchThrows
                   (clearChat (sendChatMessage_begin (app (typed "X")) "Why?"
                                 (typed "X")))))
  = [chatError].
Proof.
  apply (clear_then_reply (app (typed "X")) (typed "X") "Why?" true FetchThrows);
    [discriminate|reflexivity].
Defined.

Lemma extractJSON_wrapped_run :
  extractJSON (JStr ("Here is your lesson: "
                     +:+ String "{" (Json.text "'lesson':'L','quiz':[],'summary':'S'"
                                     +:+ String "}" " Enjoy!")))
  = Normal (JObj [("lesson", JStr "L"); ("quiz", JArr []); ("summary", JStr "S")]).
Proof.
  apply (extractJSON_wrapped "Here is your lesson: "
           (Json.text "'lesson':'L','quiz':[],'summary':'S'") " Enjoy!").
  - vm_compute. reflexivity.
  - no_such_char.
  - no_such_char.
  - no_such_char.
  - vm_compute. reflexivity.
Defined.

Lemma listen_after_generation_run :
  spoken (listenButton_onClick scenarioA_shown) = [JStr "X is a thing"].
Proof.
  destruct (listen_after_generation "X" (FetchResolves (completion scenarioA_text))
              (typed "X") scenarioA_shown) as [(Hal & _)|(_ & Hsp & _)].
  - reflexivity.
  - discriminate.
  - vm_compute. reflexivity.
  - vm_compute in Hal. discriminate.
  - exact Hsp.
Defined.
